(** * testcontainers-node: container orchestration and its engine client

    A shallow embedding of [src/generic-container.ts] and
    [src/docker-client.ts].

    Asynchronous methods are programs of a small free monad: every
    [await] on a collaborator is a [Call] node, a [throw] is a [Throw]
    node, and a rejected promise aborts the rest of the method (the
    source has no [try]/[catch]).  Running a program against a handler
    for the collaborators yields the result, the final state of the
    world and the trace of the calls that were issued.

    JS objects used as dictionaries are [gmap string _] where only the
    key set and the lookups matter, and ordered association lists where
    the property order is observable. [log.debug] and [log.info] calls
    have no effect on any value and are left out. *)

From Stdlib Require Import Ascii String.
From stdpp Require Import base option list strings pretty gmap.

Set Default Proof Using "Type".
Open Scope string_scope.
Open Scope list_scope.

(** ** Thrown values *)

(** The source throws plain [Error] objects.  The other constructors
    are the failure kinds that the specification gives to the parts of
    the repository that lie outside the two embedded files. *)
Inductive Exn : Type :=
  | JsError (message : string)
  | NotBoundError (port : N)
  | PortAllocationError
  | WaitTimeoutError.

Global Instance Exn_eq_dec : EqDecision Exn.
Proof. solve_decision. Defined.

Inductive Result (A : Type) : Type :=
  | Ok (a : A)
  | Err (e : Exn).
Arguments Ok {A} a.
Arguments Err {A} e.

Definition isOk {A} (r : Result A) : bool :=
  match r with Ok _ => true | Err _ => false end.

(** ** Programs over a signature of collaborator calls *)

Record Sig : Type := mkSig { cmd : Type; resp : cmd → Type }.

Inductive Prog (Σ : Sig) (A : Type) : Type :=
  | Ret (a : A)
  | Throw (e : Exn)
  | Call (c : cmd Σ) (k : resp Σ c → Prog Σ A).
Arguments Ret {Σ A} a.
Arguments Throw {Σ A} e.
Arguments Call {Σ A} c k.

Fixpoint bind {Σ A B} (p : Prog Σ A) (f : A → Prog Σ B) : Prog Σ B :=
  match p with
  | Ret a => f a
  | Throw e => Throw e
  | Call c k => Call c (λ x, bind (k x) f)
  end.

Global Instance Prog_ret {Σ} : MRet (Prog Σ) := λ A a, Ret a.
Global Instance Prog_bind {Σ} : MBind (Prog Σ) := λ A B f p, bind p f.

(** [await c]: one call to a collaborator. *)
Definition await {Σ} (c : cmd Σ) : Prog Σ (resp Σ c) := Call c Ret.

(** A handler answers every call, possibly changing the world [W]. *)
Definition Handler (Σ : Sig) (W : Type) : Type :=
  ∀ c : cmd Σ, W → Result (resp Σ c) * W.

(** One issued call and how it ended ([None]: it returned). *)
Record Entry (Σ : Sig) : Type := mkEntry { issued : cmd Σ; failure : option Exn }.
Arguments mkEntry {Σ} issued failure.
Arguments issued {Σ} e.
Arguments failure {Σ} e.

Record Outcome (Σ : Sig) (W A : Type) : Type :=
  mkOutcome { result : Result A; final : W; trace : list (Entry Σ) }.
Arguments mkOutcome {Σ W A} result final trace.
Arguments result {Σ W A} o.
Arguments final {Σ W A} o.
Arguments trace {Σ W A} o.

Definition logged {Σ W A} (e : Entry Σ) (o : Outcome Σ W A) : Outcome Σ W A :=
  mkOutcome (result o) (final o) (e :: trace o).

Fixpoint run {Σ W A} (h : Handler Σ W) (p : Prog Σ A) (w : W) : Outcome Σ W A :=
  match p with
  | Ret a => mkOutcome (Ok a) w []
  | Throw e => mkOutcome (Err e) w []
  | Call c k =>
      match h c w with
      | (Ok x, w') => logged (mkEntry c None) (run h (k x) w')
      | (Err e, w') => mkOutcome (Err e) w' [mkEntry c (Some e)]
      end
  end.

(** The calls of a trace, without their outcomes. *)
Definition calls {Σ} (t : list (Entry Σ)) : list (cmd Σ) := issued <$> t.

(** ** Value types *)

(** The type aliases of the source. *)
Abbreviation Port := N (only parsing).
Abbreviation Host := string (only parsing).
Abbreviation Image := string (only parsing).
Abbreviation Tag := string (only parsing).
Abbreviation Command := string (only parsing).
Abbreviation ContainerName := string (only parsing).
Abbreviation Dir := string (only parsing).
Abbreviation BuildContext := string (only parsing).
Abbreviation EnvKey := string (only parsing).
Abbreviation EnvValue := string (only parsing).

(** A JS object created as [{}] and written by [o[key] = value], as
    the list of its own properties in the order of [Object.entries]:
    array indices first, in ascending order, then the other keys in
    the order of their creation.  Writing an existing key keeps its
    place.  Writing the key [__proto__] with a string value runs the
    setter inherited from [Object.prototype], which ignores the value,
    so the object keeps its properties. *)

(** The value of a string of decimal digits. *)
Fixpoint digitsValue (s : string) (acc : N) : option N :=
  match s with
  | EmptyString => Some acc
  | String c s' =>
      let d := Ascii.N_of_ascii c in
      if (48 <=? d)%N && (d <=? 57)%N
      then digitsValue s' (acc * 10 + (d - 48))%N
      else None
  end.

(** [key] read as an array index: a decimal numeral without leading
    zero, below 2^32 - 1. *)
Definition arrayIndex (key : string) : option N :=
  match key with
  | EmptyString => None
  | String c rest =>
      if Ascii.eqb c "0" && negb (String.eqb rest EmptyString) then None
      else match digitsValue key 0 with
           | Some n => if (n <? 4294967295)%N then Some n else None
           | None => None
           end
  end.

Definition obj_has {V} (o : list (string * V)) (key : string) : bool :=
  existsb (λ entry, String.eqb entry.1 key) o.

Fixpoint obj_replace {V} (o : list (string * V)) (key : string) (value : V)
    : list (string * V) :=
  match o with
  | [] => []
  | (k, v) :: o' =>
      if String.eqb k key then (k, value) :: o' else (k, v) :: obj_replace o' key value
  end.

Fixpoint obj_add_index {V} (o : list (string * V)) (index : N) (key : string)
    (value : V) : list (string * V) :=
  match o with
  | [] => [(key, value)]
  | (k, v) :: o' =>
      match arrayIndex k with
      | Some m =>
          if (m <? index)%N then (k, v) :: obj_add_index o' index key value
          else (key, value) :: (k, v) :: o'
      | None => (key, value) :: (k, v) :: o'
      end
  end.

Definition obj_set {V} (o : list (string * V)) (key : string) (value : V)
    : list (string * V) :=
  if String.eqb key "__proto__" then o
  else if obj_has o key then obj_replace o key value
  else match arrayIndex key with
       | Some index => obj_add_index o index key value
       | None => o ++ [(key, value)]
       end.

Abbreviation Env := (list (EnvKey * EnvValue)) (only parsing).
Abbreviation TmpFs := (list (Dir * Dir)) (only parsing).
Abbreviation BuildArgs := (list (EnvKey * EnvValue)) (only parsing).

Inductive BindMode : Type := rw | ro.
Record BindMount : Type :=
  mkBindMount { source : Dir; target : Dir; bindMode : BindMode }.

Record ExecResult : Type := mkExecResult { output : string; exitCode : Z }.

(** [Duration] of the node-duration package: an amount and its unit. *)
Inductive TemporalUnit : Type := MILLISECONDS | SECONDS | MINUTES.
Record Duration : Type := mkDuration { amount : N; unit_ : TemporalUnit }.

Definition millisPer (u : TemporalUnit) : N :=
  match u with MILLISECONDS => 1 | SECONDS => 1000 | MINUTES => 60000 end%N.

(** [Duration.get(unit)], for amounts that divide evenly. *)
Definition toMillis (d : Duration) : N := (amount d * millisPer (unit_ d))%N.

Global Instance BindMode_eq_dec : EqDecision BindMode.
Proof. solve_decision. Defined.
Global Instance TemporalUnit_eq_dec : EqDecision TemporalUnit.
Proof. solve_decision. Defined.
Global Instance Duration_eq_dec : EqDecision Duration.
Proof. solve_decision. Defined.

(** ** Image references *)

Module RepoTag.
(** [tag] is [None] when the constructor received [undefined], which
    is what destructuring the result of [split] gives for a string
    without a colon. *)
Record t : Type := mk { image : Image; tag : option Tag }.

Global Instance eq_dec : EqDecision t.
Proof. solve_decision. Defined.

(** Modelled from the spec: [RepoTag.equals] is declared in
    repo-tag.ts, outside the embedded files; equality is structural,
    name and tag both equal. *)
Definition equals (a b : t) : bool :=
  String.eqb (image a) (image b)
  && match tag a, tag b with
     | Some x, Some y => String.eqb x y
     | None, None => true
     | _, _ => false
     end.
End RepoTag.

(** ** The port map *)

Module BoundPorts.
(** Modelled from the spec: [BoundPorts] is declared in
    bound-ports.ts, outside the embedded files.  It maps each
    requested internal port to its host port, iterates in request
    order, and its lookup fails for a port that was never bound. *)
Record t : Type := mk { iterator : list (Port * Port) }.

Definition empty : t := mk [].

Fixpoint set (l : list (Port * Port)) (internalPort hostPort : Port)
    : list (Port * Port) :=
  match l with
  | [] => [(internalPort, hostPort)]
  | (i, h) :: l' =>
      if N.eqb i internalPort then (i, hostPort) :: l'
      else (i, h) :: set l' internalPort hostPort
  end.

Definition setBinding (b : t) (internalPort hostPort : Port) : t :=
  mk (set (iterator b) internalPort hostPort).

Fixpoint find (l : list (Port * Port)) (internalPort : Port) : option Port :=
  match l with
  | [] => None
  | (i, h) :: l' => if N.eqb i internalPort then Some h else find l' internalPort
  end.

Definition getBinding (b : t) (internalPort : Port) : Result Port :=
  match find (iterator b) internalPort with
  | Some hostPort => Ok hostPort
  | None => Err (NotBoundError internalPort)
  end.
End BoundPorts.

Module PortBinder.
(** Modelled from the spec: [PortBinder.bind] is declared in
    port-binder.ts, outside the embedded files.  For each requested
    port, in request order, one claimed host port is recorded;
    [hostPorts] are the ports the operating system handed out. *)
Fixpoint bindAll (b : BoundPorts.t) (ports hostPorts : list Port) : BoundPorts.t :=
  match ports, hostPorts with
  | p :: ports', h :: hostPorts' =>
      bindAll (BoundPorts.setBinding b p h) ports' hostPorts'
  | _, _ => b
  end.

(** Modelled from the spec: the port map of one [bind] call, built
    from the empty map. *)
Definition bound (ports hostPorts : list Port) : BoundPorts.t :=
  bindAll BoundPorts.empty ports hostPorts.
End PortBinder.

(** ** Containers and their state *)

(** The [Container] handle of container.ts: an engine-side container,
    known by its id; its asynchronous methods are calls of the
    collaborator interface below. *)
Record Container : Type := mkContainer { getId : string }.

Module InspectResult.
(** Modelled from the spec: the inspect payload is declared in
    container.ts, outside the embedded files; it carries the assigned
    name and the running flag. *)
Record t : Type := mk { name : ContainerName; running : bool }.
End InspectResult.

(** Modelled from the spec: [ContainerState] is declared in
    container-state.ts, outside the embedded files; it is a snapshot
    of one inspect payload. *)
Record ContainerState : Type := mkContainerState { inspectResult : InspectResult.t }.

(** The client reference held by the orchestrator; [getHost] is the
    one synchronous, effect-free method of the interface. *)
Record DockerClient : Type := mkDockerClient { getHost : Host }.

(** ** Wait strategies *)

(** The two port checks of port-check.ts, by what their constructors
    receive. *)
Record HostPortCheck : Type := mkHostPortCheck { checkedHost : Host }.
Record InternalPortCheck : Type :=
  mkInternalPortCheck { checkedContainer : Container; checkingClient : DockerClient }.

(** Modelled from the spec: the strategies are declared in
    wait-strategy.ts, outside the embedded files.  The variants are
    those of the specification; [HostPortWaitStrategy] is the
    composite of a host-port and an internal-port check. *)
Inductive WaitPolicy : Type :=
  | HostPortWaitStrategy (dockerClient : DockerClient)
      (hostPortCheck : HostPortCheck) (internalPortCheck : InternalPortCheck)
  | LogWaitStrategy (pattern : string)
  | HttpWaitStrategy (path : string) (port : Port)
  | HealthCheckWaitStrategy.

Module WaitStrategy.
(** [startupTimeout] is [None] for a strategy that was constructed
    and not configured yet. *)
Record t : Type := mk { policy : WaitPolicy; startupTimeout : option Duration }.

(** Modelled from the spec: a strategy carries a configured startup
    timeout; [withStartupTimeout] stores it and returns the strategy. *)
Definition withStartupTimeout (ws : t) (d : Duration) : t := mk (policy ws) (Some d).

(** Modelled from the spec: what one polling attempt can observe, one
    field per kind of check of the specification. *)
Record Probe : Type := mkProbe {
  hostPortOpen : Host → Port → bool;
  internalPortOpen : Container → Port → bool;
  logMatches : string → bool;
  httpAccepted : string → Port → bool;
  healthy : bool
}.

(** Modelled from the spec: the predicate of each policy.  The
    composite holds when, for every bound port, the host-port check
    and the internal-port check both succeed. *)
Definition checkReady (pr : Probe) (ws : t) (boundPorts : BoundPorts.t) : bool :=
  match policy ws with
  | HostPortWaitStrategy _ hostPortCheck internalPortCheck =>
      forallb (λ '(internalPort, hostPort),
                 hostPortOpen pr (checkedHost hostPortCheck) hostPort
                 && internalPortOpen pr (checkedContainer internalPortCheck) internalPort)
              (BoundPorts.iterator boundPorts)
  | LogWaitStrategy pattern => logMatches pr pattern
  | HttpWaitStrategy path port => httpAccepted pr path port
  | HealthCheckWaitStrategy => healthy pr
  end.
End WaitStrategy.

(** ** The collaborator interface of the orchestrator *)

Record CreateOptions : Type := mkCreateOptions {
  co_repoTag : RepoTag.t;
  co_env : Env;
  co_cmd : list Command;
  co_bindMounts : list BindMount;
  co_tmpFs : TmpFs;
  co_boundPorts : BoundPorts.t;
  co_name : option ContainerName
}.

(** The calls [generic-container.ts] awaits: the methods of the
    [DockerClient] interface, of [Container], of [PortBinder], of
    [Uuid] and of [WaitStrategy]. *)
Inductive ClientCmd : Type :=
  | FetchRepoTags
  | Pull (repoTag : RepoTag.t)
  | BuildImage (repoTag : RepoTag.t) (context : BuildContext) (buildArgs : BuildArgs)
  | Create (options : CreateOptions)
  | Start (container : Container)
  | Exec (container : Container) (command : list Command)
  | PortBinderBind (ports : list Port)
  | ContainerInspect (container : Container)
  | ContainerStop (container : Container) (timeout : option Duration)
  | ContainerRemove (container : Container) (removeVolumes : option bool)
  | WaitUntilReady (waitStrategy : WaitStrategy.t) (container : Container)
      (containerState : ContainerState) (boundPorts : BoundPorts.t)
  | NextUuid.

Definition ClientResp (c : ClientCmd) : Type :=
  match c with
  | FetchRepoTags => list RepoTag.t
  | Create _ => Container
  | Exec _ _ => ExecResult
  | PortBinderBind _ => BoundPorts.t
  | ContainerInspect _ => InspectResult.t
  | NextUuid => string
  | Pull _ | BuildImage _ _ _ | Start _ | ContainerStop _ _
  | ContainerRemove _ _ | WaitUntilReady _ _ _ _ => ()
  end.

Definition ClientSig : Sig := mkSig ClientCmd ClientResp.

(** ** docker-client.ts: the dockerode-backed client *)

Module DockerodeClient.
(** [Dockerode.ImageInfo]; [RepoTags] is [None] when the engine
    reports [null]. *)
Record ImageInfo : Type := mkImageInfo { Id : string; RepoTags : option (list string) }.

Record PortBinding : Type := mkPortBinding { HostPort : string }.

Record HostConfig : Type := mkHostConfig {
  PortBindings : gmap string (list PortBinding);
  Binds : list string;
  Tmpfs : TmpFs
}.

Record ContainerCreateOptions : Type := mkContainerCreateOptions {
  opt_name : option ContainerName;
  opt_Image : string;
  opt_Env : list string;
  opt_ExposedPorts : gmap string ();
  opt_Cmd : list Command;
  opt_HostConfig : HostConfig
}.

(** The dockerode calls awaited by [fetchRepoTags] and [create]. *)
Inductive DockerodeCmd : Type :=
  | listImages
  | createContainer (options : ContainerCreateOptions).

Definition DockerodeResp (c : DockerodeCmd) : Type :=
  match c with
  | listImages => list ImageInfo
  | createContainer _ => Container
  end.

Definition DockerodeSig : Sig := mkSig DockerodeCmd DockerodeResp.

(** [s.split(sep)] for a one-character separator. *)
Fixpoint split (sep : Ascii.ascii) (s : string) : list string :=
  match s with
  | EmptyString => [EmptyString]
  | String c s' =>
      match split sep s' with
      | [] => []
      | piece :: pieces =>
          if Ascii.eqb c sep then EmptyString :: piece :: pieces
          else String c piece :: pieces
      end
  end.

(** [const [imageName, tag] = imageRepoTag.split(":");
    return new RepoTag(imageName, tag)]: the first two pieces, the
    second being [undefined] when there is none. *)
Definition toRepoTag (imageRepoTag : string) : RepoTag.t :=
  let pieces := split ":"%char imageRepoTag in
  RepoTag.mk (default EmptyString (pieces !! 0%nat)) (pieces !! 1%nat).

Definition isDanglingImage (image : ImageInfo) : bool :=
  match RepoTags image with None => true | Some _ => false end.

(** The callback of [images.reduce] in [fetchRepoTags]. *)
Definition collectRepoTags (repoTags : list RepoTag.t) (image : ImageInfo)
    : list RepoTag.t :=
  match RepoTags image with
  | None => repoTags
  | Some tags => repoTags ++ (toRepoTag <$> tags)
  end.

Definition fetchRepoTags : Prog DockerodeSig (list RepoTag.t) :=
  images ← await (Σ := DockerodeSig) listImages;
  mret (foldl collectRepoTags [] images).

Definition getEnv (env : Env) : list string :=
  foldl (λ dockerodeEnvironment '(key, value),
           dockerodeEnvironment ++ [key +:+ "=" +:+ value]) [] env.

(** [internalPort.toString()] of a port number is its decimal form,
    [pretty]. *)
Definition getExposedPorts (boundPorts : BoundPorts.t) : gmap string () :=
  foldl (λ dockerodeExposedPorts '(internalPort, _),
           <[pretty internalPort := ()]> dockerodeExposedPorts)
        ∅ (BoundPorts.iterator boundPorts).

Definition getPortBindings (boundPorts : BoundPorts.t)
    : gmap string (list PortBinding) :=
  foldl (λ dockerodePortBindings '(internalPort, hostPort),
           <[pretty internalPort := [mkPortBinding (pretty hostPort)]]>
             dockerodePortBindings)
        ∅ (BoundPorts.iterator boundPorts).

Definition bindModeString (m : BindMode) : string :=
  match m with rw => "rw" | ro => "ro" end.

Definition getBindMounts (bindMounts : list BindMount) : list string :=
  (λ m, source m +:+ ":" +:+ target m +:+ ":" +:+ bindModeString (bindMode m))
    <$> bindMounts.

Section Create.
(** [RepoTag.toString] is declared in repo-tag.ts. *)
Variable repoTagToString : RepoTag.t → string.

(** The argument of [dockerode.createContainer] in [create]. *)
Definition createRequest (options : CreateOptions) : ContainerCreateOptions :=
  {| opt_name := co_name options;
     opt_Image := repoTagToString (co_repoTag options);
     opt_Env := getEnv (co_env options);
     opt_ExposedPorts := getExposedPorts (co_boundPorts options);
     opt_Cmd := co_cmd options;
     opt_HostConfig :=
       {| PortBindings := getPortBindings (co_boundPorts options);
          Binds := getBindMounts (co_bindMounts options);
          Tmpfs := co_tmpFs options |} |}.

(** The engine's container, wrapped into a [Container] handle. *)
Definition create (options : CreateOptions) : Prog DockerodeSig Container :=
  dockerodeContainer ← await (Σ := DockerodeSig) (createContainer (createRequest options));
  mret dockerodeContainer.
End Create.
End DockerodeClient.

(** ** generic-container.ts: the started handle *)

Record StopOptions : Type := mkStopOptions { timeout : Duration; removeVolumes : bool }.

(** [Partial<StopOptions>]: the outer [None] is an absent property, the
    inner one a property holding [undefined]. *)
Record OptionalStopOptions : Type := mkOptionalStopOptions {
  timeout_opt : option (option Duration);
  removeVolumes_opt : option (option bool)
}.

(** What [{ ...DEFAULT_STOP_OPTIONS, ...options }] holds. *)
Record ResolvedStopOptions : Type := mkResolvedStopOptions {
  resolved_timeout : option Duration;
  resolved_removeVolumes : option bool
}.

Inductive StoppedGenericContainer : Type := mkStoppedGenericContainer.

Module StartedGenericContainer.
Record t : Type := mk {
  container : Container;
  host : Host;
  boundPorts : BoundPorts.t;
  name : ContainerName;
  dockerClient : DockerClient
}.

Section Stop.
(** [DEFAULT_STOP_OPTIONS] is declared in test-container.ts, outside
    the embedded files, and is a parameter here.  The specification
    gives it a graceful-stop timeout and remove-volumes false. *)
Variable DEFAULT_STOP_OPTIONS : StopOptions.

(** Object spread: the properties of [options] are copied over
    those of the defaults. *)
Definition spread (defaults : StopOptions) (options : OptionalStopOptions)
    : ResolvedStopOptions :=
  {| resolved_timeout := default (Some (timeout defaults)) (timeout_opt options);
     resolved_removeVolumes :=
       default (Some (removeVolumes defaults)) (removeVolumes_opt options) |}.

(** [options] is [None] when the argument is left out; the
    parameter then defaults to the empty object. *)
Definition stop (self : t) (options : option OptionalStopOptions)
    : Prog ClientSig StoppedGenericContainer :=
  let options := default (mkOptionalStopOptions None None) options in
  let resolvedOptions := spread DEFAULT_STOP_OPTIONS options in
  await (Σ := ClientSig)
    (ContainerStop (container self) (resolved_timeout resolvedOptions));;
  await (Σ := ClientSig)
    (ContainerRemove (container self) (resolved_removeVolumes resolvedOptions));;
  mret mkStoppedGenericContainer.
End Stop.

Definition getContainerIpAddress (self : t) : Host := host self.

Definition getMappedPort (self : t) (port : Port) : Result Port :=
  BoundPorts.getBinding (boundPorts self) port.

Definition getName (self : t) : ContainerName := name self.

Definition exec (self : t) (command : list Command) : Prog ClientSig ExecResult :=
  await (Σ := ClientSig) (Exec (container self) command).
End StartedGenericContainer.

(** ** generic-container.ts: the builder and its orchestration *)

Module GenericContainer.
Record t : Type := mk {
  image : Image;
  tag : Tag;
  repoTag : RepoTag.t;
  dockerClient : DockerClient;
  env : Env;
  ports : list Port;
  cmd : list Command;
  bindMounts : list BindMount;
  name : option ContainerName;
  tmpFs : TmpFs;
  waitStrategy : option WaitStrategy.t;
  startupTimeout : Duration
}.

(** The constructor; [client] is what
    [DockerodeClientFactory.getInstance().getClient()] returns, and
    [tag] is [None] when the argument is left out. *)
Definition new (client : DockerClient) (image : Image) (tag : option Tag) : t :=
  let tag := default "latest" tag in
  {| image := image;
     tag := tag;
     repoTag := RepoTag.mk image (Some tag);
     dockerClient := client;
     env := [];
     ports := [];
     cmd := [];
     bindMounts := [];
     name := None;
     tmpFs := [];
     waitStrategy := None;
     startupTimeout := mkDuration 60000 MILLISECONDS |}.

Definition withCmd (self : t) (cmd' : list Command) : t :=
  mk (image self) (tag self) (repoTag self) (dockerClient self) (env self)
     (ports self) cmd' (bindMounts self) (name self) (tmpFs self)
     (waitStrategy self) (startupTimeout self).

Definition withName (self : t) (name' : ContainerName) : t :=
  mk (image self) (tag self) (repoTag self) (dockerClient self) (env self)
     (ports self) (cmd self) (bindMounts self) (Some name') (tmpFs self)
     (waitStrategy self) (startupTimeout self).

Definition withEnv (self : t) (key : EnvKey) (value : EnvValue) : t :=
  mk (image self) (tag self) (repoTag self) (dockerClient self)
     (obj_set (env self) key value)
     (ports self) (cmd self) (bindMounts self) (name self) (tmpFs self)
     (waitStrategy self) (startupTimeout self).

Definition withTmpFs (self : t) (tmpFs' : TmpFs) : t :=
  mk (image self) (tag self) (repoTag self) (dockerClient self) (env self)
     (ports self) (cmd self) (bindMounts self) (name self) tmpFs'
     (waitStrategy self) (startupTimeout self).

Definition withExposedPorts (self : t) (ports' : list Port) : t :=
  mk (image self) (tag self) (repoTag self) (dockerClient self) (env self)
     ports' (cmd self) (bindMounts self) (name self) (tmpFs self)
     (waitStrategy self) (startupTimeout self).

(** [bindMode] is [None] when the argument is left out. *)
Definition withBindMount (self : t) (source target : Dir) (bindMode : option BindMode) : t :=
  mk (image self) (tag self) (repoTag self) (dockerClient self) (env self)
     (ports self) (cmd self)
     (bindMounts self ++ [mkBindMount source target (default rw bindMode)])
     (name self) (tmpFs self) (waitStrategy self) (startupTimeout self).

Definition withStartupTimeout (self : t) (startupTimeout' : Duration) : t :=
  mk (image self) (tag self) (repoTag self) (dockerClient self) (env self)
     (ports self) (cmd self) (bindMounts self) (name self) (tmpFs self)
     (waitStrategy self) startupTimeout'.

Definition withWaitStrategy (self : t) (waitStrategy' : WaitStrategy.t) : t :=
  mk (image self) (tag self) (repoTag self) (dockerClient self) (env self)
     (ports self) (cmd self) (bindMounts self) (name self) (tmpFs self)
     (Some waitStrategy') (startupTimeout self).

Definition hasRepoTagLocally (self : t) : Prog ClientSig bool :=
  repoTags ← await (Σ := ClientSig) FetchRepoTags;
  mret (existsb (λ repoTag', RepoTag.equals repoTag' (repoTag self)) repoTags).

Definition getWaitStrategy (self : t) (container : Container) : WaitStrategy.t :=
  match waitStrategy self with
  | Some configured => configured
  | None =>
      let hostPortCheck := mkHostPortCheck (getHost (dockerClient self)) in
      let internalPortCheck := mkInternalPortCheck container (dockerClient self) in
      WaitStrategy.mk
        (HostPortWaitStrategy (dockerClient self) hostPortCheck internalPortCheck)
        None
  end.

Definition waitForContainer (self : t) (container : Container)
    (containerState : ContainerState) (boundPorts : BoundPorts.t)
    : Prog ClientSig () :=
  let waitStrategy := getWaitStrategy self container in
  await (Σ := ClientSig)
    (WaitUntilReady (WaitStrategy.withStartupTimeout waitStrategy (startupTimeout self))
                    container containerState boundPorts).

Definition start (self : t) : Prog ClientSig StartedGenericContainer.t :=
  found ← hasRepoTagLocally self;
  (if negb found then await (Σ := ClientSig) (Pull (repoTag self)) else mret ());;
  boundPorts ← await (Σ := ClientSig) (PortBinderBind (ports self));
  container ← await (Σ := ClientSig)
    (Create {| co_repoTag := repoTag self;
               co_env := env self;
               co_cmd := cmd self;
               co_bindMounts := bindMounts self;
               co_tmpFs := tmpFs self;
               co_boundPorts := boundPorts;
               co_name := name self |});
  await (Σ := ClientSig) (Start container);;
  inspectResult ← await (Σ := ClientSig) (ContainerInspect container);
  let containerState := mkContainerState inspectResult in
  waitForContainer self container containerState boundPorts;;
  mret (StartedGenericContainer.mk container (getHost (dockerClient self))
          boundPorts (InspectResult.name inspectResult) (dockerClient self)).

(** A chained configuration call on the builder. *)
Inductive Config : Type :=
  | WithCmd (cmd : list Command)
  | WithName (name : ContainerName)
  | WithEnv (key : EnvKey) (value : EnvValue)
  | WithTmpFs (tmpFs : TmpFs)
  | WithExposedPorts (ports : list Port)
  | WithBindMount (source target : Dir) (bindMode : option BindMode)
  | WithStartupTimeout (startupTimeout : Duration)
  | WithWaitStrategy (waitStrategy : WaitStrategy.t).

Definition configure (self : t) (c : Config) : t :=
  match c with
  | WithCmd cmd => withCmd self cmd
  | WithName name => withName self name
  | WithEnv key value => withEnv self key value
  | WithTmpFs tmpFs => withTmpFs self tmpFs
  | WithExposedPorts ports => withExposedPorts self ports
  | WithBindMount source target bindMode => withBindMount self source target bindMode
  | WithStartupTimeout startupTimeout => withStartupTimeout self startupTimeout
  | WithWaitStrategy waitStrategy => withWaitStrategy self waitStrategy
  end.

(** The builder after a chain of calls, first call first. *)
Definition configured (self : t) (chain : list Config) : t := foldl configure self chain.
End GenericContainer.

Module GenericContainerBuilder.
(** The [uuid] generator of the builder is the collaborator that
    answers [NextUuid]. *)
Record t : Type := mk { context : BuildContext; buildArgs : BuildArgs }.

Definition new (context : BuildContext) : t := mk context [].

Definition withBuildArg (self : t) (key value : string) : t :=
  mk (context self) (obj_set (buildArgs self) key value).

(** [client] is what the client factory returns, as in
    [GenericContainer.new]. *)
Definition build (client : DockerClient) (self : t) : Prog ClientSig GenericContainer.t :=
  image ← await (Σ := ClientSig) NextUuid;
  tag ← await (Σ := ClientSig) NextUuid;
  let repoTag := RepoTag.mk image (Some tag) in
  await (Σ := ClientSig) (BuildImage repoTag (context self) (buildArgs self));;
  let container := GenericContainer.new client image (Some tag) in
  found ← GenericContainer.hasRepoTagLocally container;
  if negb found then Throw (JsError "Failed to build image") else mret container.
End GenericContainerBuilder.

(** ** Steps of an orchestration *)

Inductive Step : Type :=
  | ResolveImage | PullImage | BindPorts | CreateContainer
  | StartContainer | InspectContainer | WaitReady | OtherCall.

Global Instance Step_eq_dec : EqDecision Step.
Proof. solve_decision. Defined.

Definition stepOf (c : ClientCmd) : Step :=
  match c with
  | FetchRepoTags => ResolveImage
  | Pull _ => PullImage
  | PortBinderBind _ => BindPorts
  | Create _ => CreateContainer
  | Start _ => StartContainer
  | ContainerInspect _ => InspectContainer
  | WaitUntilReady _ _ _ _ => WaitReady
  | _ => OtherCall
  end.

(** The steps every successful [start] goes through; pulling comes
    between the first two when the image is not known locally. *)
Definition requiredSteps : list Step :=
  [ResolveImage; BindPorts; CreateContainer; StartContainer; InspectContainer; WaitReady].

(** The calls of a complete orchestration, given what the
    collaborators answered. *)
Definition orchestration (self : GenericContainer.t) (repoTags : list RepoTag.t)
    (boundPorts : BoundPorts.t) (container : Container)
    (inspectResult : InspectResult.t) : list ClientCmd :=
  [FetchRepoTags]
  ++ (if existsb (λ r, RepoTag.equals r (GenericContainer.repoTag self)) repoTags
      then [] else [Pull (GenericContainer.repoTag self)])
  ++ [PortBinderBind (GenericContainer.ports self);
      Create {| co_repoTag := GenericContainer.repoTag self;
                co_env := GenericContainer.env self;
                co_cmd := GenericContainer.cmd self;
                co_bindMounts := GenericContainer.bindMounts self;
                co_tmpFs := GenericContainer.tmpFs self;
                co_boundPorts := boundPorts;
                co_name := GenericContainer.name self |};
      Start container;
      ContainerInspect container;
      WaitUntilReady
        (WaitStrategy.withStartupTimeout
           (GenericContainer.getWaitStrategy self container)
           (GenericContainer.startupTimeout self))
        container (mkContainerState inspectResult) boundPorts].

(** The handle [start] returns for these answers. *)
Definition startedHandle (self : GenericContainer.t) (boundPorts : BoundPorts.t)
    (container : Container) (inspectResult : InspectResult.t)
    : StartedGenericContainer.t :=
  StartedGenericContainer.mk container (getHost (GenericContainer.dockerClient self))
    boundPorts (InspectResult.name inspectResult) (GenericContainer.dockerClient self).

(** A port binder that behaves as specified: whatever it returns was
    built by recording one host port per requested port. *)
Definition bindsAsSpecified {W} (h : Handler ClientSig W) : Prop :=
  ∀ ports w boundPorts w',
    h (PortBinderBind ports) w = (Ok boundPorts, w') →
    ∃ hostPorts,
      length hostPorts = length ports ∧ boundPorts = PortBinder.bound ports hostPorts.

(** The error that [build] throws when the built image is not listed. *)
Definition buildFailure : Exn := JsError "Failed to build image".

(** Modelled from the spec: [RandomUuid], the default generator of the
    image-build builder, is declared in uuid.ts, outside the embedded
    files; the identifiers it generates are fresh and unique.  [issued]
    reads off the world the identifiers handed out so far: every
    answer to [NextUuid] is an identifier that was not handed out
    before and counts as handed out from then on, and no other call
    changes what was handed out. *)
Definition uniqueUuids {W} (issued : W → list string) (h : Handler ClientSig W)
    : Prop :=
  (∀ w id w', h NextUuid w = (Ok id, w') →
     (id ∉ issued w) ∧ ∀ x, x ∈ issued w' ↔ x = id ∨ x ∈ issued w)
  ∧ (∀ c w r w', c ≠ NextUuid → h c w = (r, w') →
       ∀ x, x ∈ issued w' ↔ x ∈ issued w).

(** Whether character [c] occurs in [s]. *)
Fixpoint occurs (c : Ascii.ascii) (s : string) : bool :=
  match s with
  | EmptyString => false
  | String c' s' => Ascii.eqb c' c || occurs c s'
  end.

(** ** Sample collaborators *)

Module Sample.
Definition client : DockerClient := mkDockerClient "localhost".

Definition hostPortsFor (ports : list Port) : list Port :=
  (λ i, 32768 + N.of_nat i)%N <$> seq 0 (length ports).

(** An engine whose world is the list of locally known images;
    [builds] tells whether a successful build lists its image. *)
Definition engine (builds : bool) : Handler ClientSig (list RepoTag.t) :=
  λ c, match c as c0 return list RepoTag.t → Result (ClientResp c0) * list RepoTag.t with
       | FetchRepoTags => λ known, (Ok known, known)
       | Pull repoTag => λ known, (Ok (), known ++ [repoTag])
       | BuildImage repoTag _ _ =>
           λ known, (Ok (), if builds then known ++ [repoTag] else known)
       | Create _ => λ known, (Ok (mkContainer "c0ffee"), known)
       | Start _ => λ known, (Ok (), known)
       | Exec _ _ => λ known, (Ok (mkExecResult "" 0), known)
       | PortBinderBind ports =>
           λ known, (Ok (PortBinder.bound ports (hostPortsFor ports)), known)
       | ContainerInspect _ => λ known, (Ok (InspectResult.mk "/web" true), known)
       | ContainerStop _ _ => λ known, (Ok (), known)
       | ContainerRemove _ _ => λ known, (Ok (), known)
       | WaitUntilReady _ _ _ _ => λ known, (Ok (), known)
       | NextUuid => λ known, (Ok "3f2a", known)
       end.

(** [failing bad h] rejects the calls that [bad] selects and leaves
    the others to [h]. *)
Definition failing {W} (bad : ClientCmd → option Exn) (h : Handler ClientSig W)
    : Handler ClientSig W :=
  λ c w, match bad c with Some e => (Err e, w) | None => h c w end.

Definition atBuild (e : Exn) (c : ClientCmd) : option Exn :=
  match c with BuildImage _ _ _ => Some e | _ => None end.

Definition atCreate (e : Exn) (c : ClientCmd) : option Exn :=
  match c with Create _ => Some e | _ => None end.

Definition web : GenericContainer.t :=
  GenericContainer.configured (GenericContainer.new client "nginx" None)
    [GenericContainer.WithExposedPorts [80; 443]%N;
     GenericContainer.WithEnv "MODE" "test"].

Definition builder : GenericContainerBuilder.t :=
  GenericContainerBuilder.withBuildArg (GenericContainerBuilder.new "./ctx") "V" "1".

Definition images : list DockerodeClient.ImageInfo :=
  [DockerodeClient.mkImageInfo "sha256:1" (Some ["nginx:latest"; "nginx:1.25"]);
   DockerodeClient.mkImageInfo "sha256:2" None;
   DockerodeClient.mkImageInfo "sha256:3" (Some ["redis:7"])].

Definition dockerode : Handler DockerodeClient.DockerodeSig () :=
  λ c, match c as c0 return () → Result (DockerodeClient.DockerodeResp c0) * () with
       | DockerodeClient.listImages => λ _, (Ok images, ())
       | DockerodeClient.createContainer _ => λ _, (Ok (mkContainer "c0ffee"), ())
       end.
End Sample.

Module SampleUuid.
(** The sample engine with a generator that counts: the world also
    holds the number of identifiers handed out, and the next
    identifier is that number in decimal. *)
Definition engine (builds : bool) : Handler ClientSig (list RepoTag.t * nat) :=
  λ c, match c as c0
             return list RepoTag.t * nat
                    → Result (ClientResp c0) * (list RepoTag.t * nat) with
       | NextUuid => λ '(known, n), (Ok (pretty (N.of_nat n)), (known, S n))
       | c0 => λ '(known, n),
                 let '(r, known') := Sample.engine builds c0 known in (r, (known', n))
       end.

Definition issued (w : list RepoTag.t * nat) : list string :=
  (λ i, pretty (N.of_nat i)) <$> seq 0 w.2.
End SampleUuid.

(** ** docker-client.ts: the remaining methods of the client *)

Module DockerodeClientIO.
(** A response stream of the engine, and the stream [tar.pack(context)]
    makes of a build context. *)
Record Stream : Type := mkStream { streamId : N }.
Record TarStream : Type := pack { packedContext : BuildContext }.

(** The second argument of [dockerode.buildImage]. *)
Record ImageBuildOptions : Type :=
  mkImageBuildOptions { buildargs : BuildArgs; t : string }.

(** The exec instance [container.exec] returns, its options, and what
    its [inspect] reports. *)
Record Exec : Type := mkExec { execId : string }.
Record ExecOptions : Type :=
  mkExecOptions { eo_cmd : list Command; attachStdout : bool; attachStderr : bool }.
Record ExecInspectInfo : Type := mkExecInspectInfo { inspectedExitCode : Z }.

(** The calls awaited by [pull], [start], [exec] and [buildImage];
    [streamToArray] yields the chunks of a stream once it has ended,
    each chunk a string of bytes. *)
Inductive IOCmd : Type :=
  | dockerodePull (repoTag : string)
  | dockerodeBuildImage (tarStream : TarStream) (options : ImageBuildOptions)
  | streamToArray (stream : Stream)
  | containerStart (container : Container)
  | containerExec (container : Container) (options : ExecOptions)
  | execStart (exec : Exec)
  | execInspect (exec : Exec).

Definition IOResp (c : IOCmd) : Type :=
  match c with
  | dockerodePull _ | dockerodeBuildImage _ _ | execStart _ => Stream
  | streamToArray _ => list string
  | containerStart _ => ()
  | containerExec _ _ => Exec
  | execInspect _ => ExecInspectInfo
  end.

Definition IOSig : Sig := mkSig IOCmd IOResp.

Section Methods.
(** [RepoTag.toString] is declared in repo-tag.ts; [bufferToString] is
    [Buffer.prototype.toString], the decoding of bytes to text. *)
Variable repoTagToString : RepoTag.t → string.
Variable bufferToString : string → string.

Definition pull (repoTag : RepoTag.t) : Prog IOSig () :=
  stream ← await (Σ := IOSig) (dockerodePull (repoTagToString repoTag));
  await (Σ := IOSig) (streamToArray stream);;
  mret ().

Definition start (container : Container) : Prog IOSig () :=
  await (Σ := IOSig) (containerStart container).

Definition exec (container : Container) (command : list Command)
    : Prog IOSig ExecResult :=
  exec ← await (Σ := IOSig)
    (containerExec container
       {| eo_cmd := command; attachStdout := true; attachStderr := true |});
  stream ← await (Σ := IOSig) (execStart exec);
  chunks ← await (Σ := IOSig) (streamToArray stream);
  let output := bufferToString (String.concat "" chunks) in
  info ← await (Σ := IOSig) (execInspect exec);
  mret {| output := output; exitCode := inspectedExitCode info |}.

Definition buildImage (repoTag : RepoTag.t) (context : BuildContext)
    (buildArgs : BuildArgs) : Prog IOSig () :=
  let tarStream := pack context in
  stream ← await (Σ := IOSig)
    (dockerodeBuildImage tarStream
       {| buildargs := buildArgs; t := repoTagToString repoTag |});
  await (Σ := IOSig) (streamToArray stream);;
  mret ().
End Methods.
End DockerodeClientIO.

(** ** Reading the builder *)

(** The bind mount a configuration call adds, if it adds one. *)
Definition mountOf (c : GenericContainer.Config) : option BindMount :=
  match c with
  | GenericContainer.WithBindMount source target bindMode =>
      Some (mkBindMount source target (default rw bindMode))
  | _ => None
  end.

(** The image-build builder after a chain of [withBuildArg] calls,
    first call first. *)
Definition withBuildArgs (self : GenericContainerBuilder.t)
    (args : list (string * string)) : GenericContainerBuilder.t :=
  foldl (λ b '(key, value), GenericContainerBuilder.withBuildArg b key value) self args.

(** [GenericContainer.fromDockerfile]. *)
Definition fromDockerfile (context : BuildContext) : GenericContainerBuilder.t :=
  GenericContainerBuilder.new context.

(** ** Sample engine streams *)

Module SampleIO.
(** An engine that answers every call; a stream ends after two
    chunks. *)
Definition engine : Handler DockerodeClientIO.IOSig () :=
  λ c, match c as c0 return () → Result (DockerodeClientIO.IOResp c0) * () with
       | DockerodeClientIO.dockerodePull _ => λ _, (Ok (DockerodeClientIO.mkStream 1), ())
       | DockerodeClientIO.dockerodeBuildImage _ _ =>
           λ _, (Ok (DockerodeClientIO.mkStream 2), ())
       | DockerodeClientIO.streamToArray _ => λ _, (Ok ["hel"; "lo"], ())
       | DockerodeClientIO.containerStart _ => λ _, (Ok (), ())
       | DockerodeClientIO.containerExec _ _ =>
           λ _, (Ok (DockerodeClientIO.mkExec "e1"), ())
       | DockerodeClientIO.execStart _ => λ _, (Ok (DockerodeClientIO.mkStream 3), ())
       | DockerodeClientIO.execInspect _ =>
           λ _, (Ok (DockerodeClientIO.mkExecInspectInfo 0), ())
       end.

(** An engine on which no stream can be read to its end. *)
Definition brokenStreams : Handler DockerodeClientIO.IOSig () :=
  λ c, match c as c0 return () → Result (DockerodeClientIO.IOResp c0) * () with
       | DockerodeClientIO.streamToArray _ => λ _, (Err (JsError "socket hang up"), ())
       | c0 => engine c0
       end.

Definition toString (r : RepoTag.t) : string :=
  RepoTag.image r +:+ ":" +:+ default "undefined" (RepoTag.tag r).
End SampleIO.

(** * Properties *)

(** ** The program monad *)

(** A call that failed ends the run, and its error is the result. *)
Lemma run_failure_is_result {Σ W A} (h : Handler Σ W) (p : Prog Σ A) w en e :
  en ∈ trace (run h p w) → failure en = Some e → result (run h p w) = Err e.
Proof.
  revert w. induction p as [a|e'|c k IH]; intros w; cbn.
  - by intros ?%elem_of_nil.
  - by intros ?%elem_of_nil.
  - destruct (h c w) as [[x|e'] w']; cbn.
    + intros [->|Hin]%elem_of_cons; [done|]. by apply IH.
    + intros ->%list_elem_of_singleton. cbn. by intros [= ->].
Qed.

(** A run that returns a value has seen every call return. *)
Lemma run_ok_all_returned {Σ W A} (h : Handler Σ W) (p : Prog Σ A) w a :
  result (run h p w) = Ok a → Forall (λ en, failure en = None) (trace (run h p w)).
Proof.
  revert w. induction p as [a'|e'|c k IH]; intros w; cbn.
  - constructor.
  - constructor.
  - destruct (h c w) as [[x|e'] w']; cbn; [|done].
    intros Hok. constructor; [done|]. by apply IH.
Qed.

(** ** Image references *)

Lemma equals_spec (a b : RepoTag.t) :
  RepoTag.equals a b = true
  ↔ RepoTag.image a = RepoTag.image b ∧ RepoTag.tag a = RepoTag.tag b.
Proof.
  destruct a as [ia ta], b as [ib tb]. unfold RepoTag.equals. cbn.
  rewrite andb_true_iff, String.eqb_eq.
  split.
  - intros [-> Ht]. destruct ta, tb; try done. by apply String.eqb_eq in Ht as ->.
  - intros [-> ->]. split; [done|]. destruct tb; [apply String.eqb_refl|done].
Qed.

Lemma listed_spec (r : RepoTag.t) (repoTags : list RepoTag.t) :
  existsb (λ r', RepoTag.equals r' r) repoTags = true
  ↔ ∃ r', r' ∈ repoTags
          ∧ RepoTag.image r' = RepoTag.image r ∧ RepoTag.tag r' = RepoTag.tag r.
Proof.
  rewrite existsb_exists. split.
  - intros (r' & Hin & Heq%equals_spec). exists r'. by rewrite list_elem_of_In.
  - intros (r' & Hin & Heq). exists r'. by rewrite <-list_elem_of_In, equals_spec.
Qed.

(** Case analysis on the answers of the handler, one call at a time. *)
Ltac answer h :=
  match goal with
  | |- context [h ?c ?w] =>
      let E := fresh "Hcall" in
      destruct (h c w) as [[?|?] ?] eqn:E; cbn in *
  end.

(** Membership in an explicit list of calls: the cases that are a
    different call are discarded. *)
Ltac among H :=
  repeat (apply elem_of_cons in H as [H|H]; [try discriminate H|]);
  try (by apply elem_of_nil in H).

Ltac unfold_start :=
  unfold GenericContainer.start, GenericContainer.hasRepoTagLocally,
    GenericContainer.waitForContainer; cbn.

Global Instance BoundPorts_inhabited : Inhabited BoundPorts.t :=
  populate BoundPorts.empty.
Global Instance Container_inhabited : Inhabited Container :=
  populate (mkContainer EmptyString).
Global Instance InspectResult_inhabited : Inhabited InspectResult.t :=
  populate (InspectResult.mk EmptyString false).

(** ** The orchestration of [start] *)

(** C1: whatever the collaborators answer, the calls of [start] are an
    initial segment of the orchestration -- list the known images, pull
    when the image is not among them, bind the ports, create, start,
    inspect once, wait until ready -- and when [start] returns, the
    whole orchestration was issued, in that order, and the handle is
    built from its answers. *)
Theorem start_steps_in_order {W} (h : Handler ClientSig W)
    (self : GenericContainer.t) (w : W) :
  ∃ repoTags boundPorts container inspectResult,
    calls (trace (run h (GenericContainer.start self) w)) `prefix_of`
      orchestration self repoTags boundPorts container inspectResult
    ∧ ∀ started,
        result (run h (GenericContainer.start self) w) = Ok started →
        calls (trace (run h (GenericContainer.start self) w))
          = orchestration self repoTags boundPorts container inspectResult
        ∧ started = startedHandle self boundPorts container inspectResult.
Proof.
  unfold_start. unfold orchestration.
  answer h.
  2:{ exists [], inhabitant, inhabitant, inhabitant. split; [by eexists|done]. }
  match goal with x : list RepoTag.t |- _ => exists x end.
  destruct (existsb _ _); cbn.
  all: repeat answer h.
  all: try (eexists _, _, _; split; [by eexists|]; intros ? [= <-]; done).
  all: try (exists inhabitant, inhabitant, inhabitant; split; [by eexists|done]).
  Unshelve. all: exact inhabitant.
Qed.

Lemma start_steps_in_order_witness :
  ∃ repoTags boundPorts container inspectResult,
    calls (trace (run (Sample.engine true) (GenericContainer.start Sample.web) []))
      = orchestration Sample.web repoTags boundPorts container inspectResult
    ∧ stepOf <$> orchestration Sample.web repoTags boundPorts container inspectResult
      = [ResolveImage; PullImage; BindPorts; CreateContainer; StartContainer;
         InspectContainer; WaitReady].
Proof.
  destruct (start_steps_in_order (Sample.engine true) Sample.web [])
    as (repoTags & boundPorts & container & inspectResult & _ & Hok).
  exists repoTags, boundPorts, container, inspectResult.
  destruct (Hok _ eq_refl) as [Hcalls _].
  split; [exact Hcalls|]. rewrite <-Hcalls. reflexivity.
Defined.

(** C2: a failure of any step is the result of [start], unchanged, and
    it ends the orchestration; [start] raises no error of its own; and
    a handle is returned only when every call returned and every step
    was taken. *)
Theorem start_failure_propagates {W} (h : Handler ClientSig W)
    (self : GenericContainer.t) (w : W) :
  (∀ en e, en ∈ trace (run h (GenericContainer.start self) w) →
           failure en = Some e →
           result (run h (GenericContainer.start self) w) = Err e)
  ∧ (∀ e, result (run h (GenericContainer.start self) w) = Err e →
          ∃ t c, trace (run h (GenericContainer.start self) w)
                 = t ++ [mkEntry c (Some e)]
                 ∧ Forall (λ en, failure en = None) t)
  ∧ (∀ started, result (run h (GenericContainer.start self) w) = Ok started →
       Forall (λ en, failure en = None) (trace (run h (GenericContainer.start self) w))
       ∧ filter (λ s, s ≠ PullImage)
           (stepOf <$> calls (trace (run h (GenericContainer.start self) w)))
         = requiredSteps).
Proof.
  split; [|split].
  - intros en e. apply run_failure_is_result.
  - unfold_start. intros e. answer h.
    2:{ intros [= ->]. by exists [], FetchRepoTags. }
    destruct (existsb _ _); cbn.
    all: repeat answer h.
    all: intros [= ->].
    all: match goal with
         | |- ∃ t c, ?l = _ ∧ _ => exists (removelast l); cbn
         end.
    all: eexists; split; [reflexivity|repeat constructor].
  - intros started Hok. split; [by eapply run_ok_all_returned|].
    revert Hok. unfold_start. answer h; [|done].
    destruct (existsb _ _); cbn.
    all: repeat answer h.
    all: done.
Qed.

Lemma start_failure_propagates_witness :
  ∃ t c,
    trace (run (Sample.failing (Sample.atCreate (JsError "no such image"))
                  (Sample.engine true))
             (GenericContainer.start Sample.web) [])
    = t ++ [mkEntry c (Some (JsError "no such image"))]
    ∧ Forall (λ en, failure en = None) t.
Proof.
  destruct (start_failure_propagates
              (Sample.failing (Sample.atCreate (JsError "no such image"))
                 (Sample.engine true))
              Sample.web [])
    as (_ & Herr & _).
  exact (Herr _ eq_refl).
Defined.

(** ** Resolving the image *)

(** C3: [start] first lists the known images; when the listing
    returns, the image is pulled exactly when no listed reference has
    both the name and the tag of the requested one; and nothing but
    the requested reference is ever pulled. *)
Theorem start_pulls_iff_absent {W} (h : Handler ClientSig W)
    (self : GenericContainer.t) (w : W) :
  head (calls (trace (run h (GenericContainer.start self) w))) = Some FetchRepoTags
  ∧ (∀ repoTags w',
       h FetchRepoTags w = (Ok repoTags, w') →
       Pull (GenericContainer.repoTag self)
         ∈ calls (trace (run h (GenericContainer.start self) w))
       ↔ ¬ ∃ r, r ∈ repoTags
               ∧ RepoTag.image r = RepoTag.image (GenericContainer.repoTag self)
               ∧ RepoTag.tag r = RepoTag.tag (GenericContainer.repoTag self))
  ∧ (∀ r, Pull r ∈ calls (trace (run h (GenericContainer.start self) w)) →
          r = GenericContainer.repoTag self).
Proof.
  split; [|split].
  - unfold_start. by answer h.
  - intros repoTags w' Hfetch. unfold_start. rewrite Hfetch. cbn.
    rewrite <-listed_spec.
    destruct (existsb _ _); cbn.
    + split; [|done]. repeat answer h.
      all: intros Hin; among Hin.
    + split; [done|]. intros _. answer h.
      all: apply list_elem_of_further, list_elem_of_here.
  - intros r. unfold_start. answer h.
    2:{ intros Hin. among Hin. }
    destruct (existsb _ _); cbn.
    all: repeat answer h.
    all: intros Hin; among Hin.
    all: by injection Hin as ->.
Qed.

Lemma start_pulls_iff_absent_witness :
  Pull (GenericContainer.repoTag Sample.web)
    ∈ calls (trace (run (Sample.engine true) (GenericContainer.start Sample.web)
                      [RepoTag.mk "nginx" (Some "1.25")]))
  ∧ Pull (GenericContainer.repoTag Sample.web)
    ∉ calls (trace (run (Sample.engine true) (GenericContainer.start Sample.web)
                      [RepoTag.mk "nginx" (Some "latest")])).
Proof.
  split.
  - destruct (start_pulls_iff_absent (Sample.engine true) Sample.web
                [RepoTag.mk "nginx" (Some "1.25")]) as (_ & Hiff & _).
    apply (Hiff _ _ eq_refl).
    intros (r & ->%list_elem_of_singleton & _ & Htag). discriminate Htag.
  - destruct (start_pulls_iff_absent (Sample.engine true) Sample.web
                [RepoTag.mk "nginx" (Some "latest")]) as (_ & Hiff & _).
    intros Hin. apply (Hiff _ _ eq_refl) in Hin. apply Hin.
    exists (RepoTag.mk "nginx" (Some "latest")).
    split; [apply list_elem_of_here|split; reflexivity].
Defined.

(** ** Builder state *)

Lemma configured_snoc self chain c :
  GenericContainer.configured self (chain ++ [c])
  = GenericContainer.configure (GenericContainer.configured self chain) c.
Proof. unfold GenericContainer.configured. by rewrite foldl_app. Qed.

Lemma configured_dockerClient self chain :
  GenericContainer.dockerClient (GenericContainer.configured self chain)
  = GenericContainer.dockerClient self.
Proof.
  induction chain as [|c chain IH] using rev_ind; [done|].
  rewrite configured_snoc, <-IH. by destruct c.
Qed.

Lemma configure_startupTimeout_other self c :
  (∀ d, c ≠ GenericContainer.WithStartupTimeout d) →
  GenericContainer.startupTimeout (GenericContainer.configure self c)
  = GenericContainer.startupTimeout self.
Proof. intros Hc. destruct c; try reflexivity. by destruct (Hc startupTimeout). Qed.

Lemma configure_waitStrategy_other self c :
  (∀ s, c ≠ GenericContainer.WithWaitStrategy s) →
  GenericContainer.waitStrategy (GenericContainer.configure self c)
  = GenericContainer.waitStrategy self.
Proof. intros Hc. destruct c; try reflexivity. by destruct (Hc waitStrategy). Qed.

(** A chain without [withStartupTimeout] leaves the timeout as it was. *)
Lemma configured_startupTimeout_none self chain :
  (∀ d, GenericContainer.WithStartupTimeout d ∉ chain) →
  GenericContainer.startupTimeout (GenericContainer.configured self chain)
  = GenericContainer.startupTimeout self.
Proof.
  induction chain as [|c chain IH] using rev_ind; intros Hnone; [done|].
  rewrite configured_snoc, configure_startupTimeout_other.
  - apply IH. intros d Hin. apply (Hnone d), elem_of_app. by left.
  - intros d ->. apply (Hnone d), elem_of_app. right. apply list_elem_of_here.
Qed.

(** The timeout set by the last [withStartupTimeout] of a chain. *)
Lemma configured_startupTimeout_last self pre d post :
  (∀ d', GenericContainer.WithStartupTimeout d' ∉ post) →
  GenericContainer.startupTimeout
    (GenericContainer.configured self (pre ++ GenericContainer.WithStartupTimeout d :: post))
  = d.
Proof.
  intros Hnone. unfold GenericContainer.configured. rewrite foldl_app. cbn.
  by rewrite (configured_startupTimeout_none _ post Hnone).
Qed.

Lemma configured_waitStrategy_none self chain :
  (∀ s, GenericContainer.WithWaitStrategy s ∉ chain) →
  GenericContainer.waitStrategy (GenericContainer.configured self chain)
  = GenericContainer.waitStrategy self.
Proof.
  induction chain as [|c chain IH] using rev_ind; intros Hnone; [done|].
  rewrite configured_snoc, configure_waitStrategy_other.
  - apply IH. intros s Hin. apply (Hnone s), elem_of_app. by left.
  - intros s ->. apply (Hnone s), elem_of_app. right. apply list_elem_of_here.
Qed.

Lemma configured_waitStrategy_last self pre s post :
  (∀ s', GenericContainer.WithWaitStrategy s' ∉ post) →
  GenericContainer.waitStrategy
    (GenericContainer.configured self (pre ++ GenericContainer.WithWaitStrategy s :: post))
  = Some s.
Proof.
  intros Hnone. unfold GenericContainer.configured. rewrite foldl_app. cbn.
  by rewrite (configured_waitStrategy_none _ post Hnone).
Qed.

(** The one [waitUntilReady] call of [start]: the selected strategy,
    given the startup timeout of the builder. *)
Lemma start_wait_call {W} (h : Handler ClientSig W) self (w : W) ws c st bp :
  WaitUntilReady ws c st bp ∈ calls (trace (run h (GenericContainer.start self) w)) →
  ws = WaitStrategy.withStartupTimeout
         (GenericContainer.getWaitStrategy self c)
         (GenericContainer.startupTimeout self).
Proof.
  unfold_start. answer h.
  2:{ intros Hin. among Hin. }
  destruct (existsb _ _); cbn.
  all: repeat answer h.
  all: intros Hin; among Hin.
  all: by injection Hin as -> -> _ _.
Qed.

(** ** Waiting for readiness *)

(** Once the inspection of the created container has returned,
    [start] invokes [waitUntilReady] on that container, with the
    selected strategy given the startup timeout of the builder. *)
Lemma start_wait_invoked {W} (h : Handler ClientSig W) self (w : W) c :
  mkEntry (Σ := ClientSig) (ContainerInspect c) None
    ∈ trace (run h (GenericContainer.start self) w) →
  ∃ st bp,
    WaitUntilReady
      (WaitStrategy.withStartupTimeout
         (GenericContainer.getWaitStrategy self c)
         (GenericContainer.startupTimeout self)) c st bp
      ∈ calls (trace (run h (GenericContainer.start self) w)).
Proof.
  unfold_start. answer h.
  2:{ intros Hin. among Hin. }
  destruct (existsb _ _); cbn.
  all: repeat answer h.
  all: intros Hin; among Hin.
  all: injection Hin as ->.
  all: eexists _, _; rewrite !elem_of_cons; auto 10.
Qed.

(** A handle is returned only after [waitUntilReady] was invoked on
    its container and its port map, and returned. *)
Lemma start_ok_waited {W} (h : Handler ClientSig W) self (w : W) started :
  result (run h (GenericContainer.start self) w) = Ok started →
  ∃ st,
    mkEntry (Σ := ClientSig)
      (WaitUntilReady
         (WaitStrategy.withStartupTimeout
            (GenericContainer.getWaitStrategy self
               (StartedGenericContainer.container started))
            (GenericContainer.startupTimeout self))
         (StartedGenericContainer.container started) st
         (StartedGenericContainer.boundPorts started)) None
      ∈ trace (run h (GenericContainer.start self) w).
Proof.
  unfold_start. answer h; [|done].
  destruct (existsb _ _); cbn.
  all: repeat answer h; try done.
  all: intros [= <-]; cbn.
  all: eexists; rewrite !elem_of_cons; auto 10.
Qed.

(** C4: [start] invokes [waitUntilReady] -- as soon as the inspection
    of the created container has returned, and before any handle is
    returned -- and the strategy it is invoked with is the one of the
    last [withWaitStrategy] call of the builder; without such a call
    it is the composite of a host-port check against the client's
    host and an internal-port check in the created container, which
    is ready exactly when both checks succeed for every bound port. *)
Theorem start_wait_strategy {W} (h : Handler ClientSig W) client image tag chain
    (w : W) :
  let self := GenericContainer.configured (GenericContainer.new client image tag) chain in
  let o := run h (GenericContainer.start self) w in
  let selected ws c :=
    (∀ pre s post,
       chain = pre ++ GenericContainer.WithWaitStrategy s :: post →
       (∀ s', GenericContainer.WithWaitStrategy s' ∉ post) →
       ws = WaitStrategy.withStartupTimeout s (GenericContainer.startupTimeout self))
    ∧ ((∀ s, GenericContainer.WithWaitStrategy s ∉ chain) →
       WaitStrategy.policy ws
       = HostPortWaitStrategy client (mkHostPortCheck (getHost client))
           (mkInternalPortCheck c client)
       ∧ ∀ pr boundPorts,
           WaitStrategy.checkReady pr ws boundPorts = true
           ↔ ∀ internalPort hostPort,
               (internalPort, hostPort) ∈ BoundPorts.iterator boundPorts →
               WaitStrategy.hostPortOpen pr (getHost client) hostPort = true
               ∧ WaitStrategy.internalPortOpen pr c internalPort = true) in
  (∀ c, mkEntry (Σ := ClientSig) (ContainerInspect c) None ∈ trace o →
        ∃ ws st bp, WaitUntilReady ws c st bp ∈ calls (trace o) ∧ selected ws c)
  ∧ (∀ started, result o = Ok started →
        ∃ ws st,
          mkEntry (Σ := ClientSig)
            (WaitUntilReady ws (StartedGenericContainer.container started) st
               (StartedGenericContainer.boundPorts started)) None ∈ trace o
          ∧ selected ws (StartedGenericContainer.container started))
  ∧ (∀ ws c st bp, WaitUntilReady ws c st bp ∈ calls (trace o) → selected ws c).
Proof.
  cbn zeta.
  assert (Hselected : ∀ c,
    (∀ pre s post,
       chain = pre ++ GenericContainer.WithWaitStrategy s :: post →
       (∀ s', GenericContainer.WithWaitStrategy s' ∉ post) →
       WaitStrategy.withStartupTimeout
         (GenericContainer.getWaitStrategy
            (GenericContainer.configured (GenericContainer.new client image tag) chain) c)
         (GenericContainer.startupTimeout
            (GenericContainer.configured (GenericContainer.new client image tag) chain))
       = WaitStrategy.withStartupTimeout s
           (GenericContainer.startupTimeout
              (GenericContainer.configured
                 (GenericContainer.new client image tag) chain)))
    ∧ ((∀ s, GenericContainer.WithWaitStrategy s ∉ chain) →
       WaitStrategy.policy
         (WaitStrategy.withStartupTimeout
            (GenericContainer.getWaitStrategy
               (GenericContainer.configured (GenericContainer.new client image tag) chain)
               c)
            (GenericContainer.startupTimeout
               (GenericContainer.configured (GenericContainer.new client image tag) chain)))
       = HostPortWaitStrategy client (mkHostPortCheck (getHost client))
           (mkInternalPortCheck c client)
       ∧ ∀ pr boundPorts,
           WaitStrategy.checkReady pr
             (WaitStrategy.withStartupTimeout
                (GenericContainer.getWaitStrategy
                   (GenericContainer.configured
                      (GenericContainer.new client image tag) chain) c)
                (GenericContainer.startupTimeout
                   (GenericContainer.configured
                      (GenericContainer.new client image tag) chain)))
             boundPorts = true
           ↔ ∀ internalPort hostPort,
               (internalPort, hostPort) ∈ BoundPorts.iterator boundPorts →
               WaitStrategy.hostPortOpen pr (getHost client) hostPort = true
               ∧ WaitStrategy.internalPortOpen pr c internalPort = true)).
  { intros c. unfold GenericContainer.getWaitStrategy. split.
    - intros pre s post -> Hpost.
      by rewrite (configured_waitStrategy_last _ pre s post Hpost).
    - intros Hnone.
      rewrite (configured_waitStrategy_none _ chain Hnone), configured_dockerClient.
      cbn. split; [done|]. intros pr boundPorts.
      unfold WaitStrategy.checkReady. cbn. rewrite forallb_forall. split.
      + intros Hall internalPort hostPort Hin%list_elem_of_In.
        by apply Hall, andb_true_iff in Hin.
      + intros Hall [internalPort hostPort] Hin%list_elem_of_In.
        by apply andb_true_iff, Hall. }
  split; [|split].
  - intros c (st & bp & Hin)%start_wait_invoked. by eexists _, st, bp.
  - intros started (st & Hin)%start_ok_waited. by eexists _, st.
  - intros ws c st bp ->%start_wait_call. apply Hselected.
Qed.

Lemma start_wait_strategy_witness :
  ∃ ws st bp,
    WaitUntilReady ws (mkContainer "c0ffee") st bp
      ∈ calls (trace (run (Sample.engine true) (GenericContainer.start Sample.web) []))
    ∧ WaitStrategy.policy ws
      = HostPortWaitStrategy Sample.client (mkHostPortCheck "localhost")
          (mkInternalPortCheck (mkContainer "c0ffee") Sample.client).
Proof.
  destruct (proj1 (start_wait_strategy (Sample.engine true) Sample.client "nginx" None
                     [GenericContainer.WithExposedPorts [80; 443]%N;
                      GenericContainer.WithEnv "MODE" "test"] [])
              (mkContainer "c0ffee"))
    as (ws & st & bp & Hin & _ & Hdefault).
  - vm_compute. do 5 apply list_elem_of_further. apply list_elem_of_here.
  - exists ws, st, bp. split; [exact Hin|].
    apply Hdefault. intros s Hs. among Hs.
Defined.

(** C5: [start] invokes [waitUntilReady] -- as soon as the inspection
    of the created container has returned, and before any handle is
    returned -- and the strategy it is invoked on carries a startup
    timeout of 60000 milliseconds, that is 60 seconds, when the builder
    never received [withStartupTimeout], and the duration of the last
    such call otherwise. *)
Theorem start_startup_timeout {W} (h : Handler ClientSig W) client image tag chain
    (w : W) :
  let self := GenericContainer.configured (GenericContainer.new client image tag) chain in
  let o := run h (GenericContainer.start self) w in
  let timed ws :=
    ((∀ d, GenericContainer.WithStartupTimeout d ∉ chain) →
     WaitStrategy.startupTimeout ws = Some (mkDuration 60000 MILLISECONDS)
     ∧ toMillis (mkDuration 60000 MILLISECONDS) = toMillis (mkDuration 60 SECONDS))
    ∧ (∀ pre d post,
         chain = pre ++ GenericContainer.WithStartupTimeout d :: post →
         (∀ d', GenericContainer.WithStartupTimeout d' ∉ post) →
         WaitStrategy.startupTimeout ws = Some d) in
  (∀ c, mkEntry (Σ := ClientSig) (ContainerInspect c) None ∈ trace o →
        ∃ ws st bp, WaitUntilReady ws c st bp ∈ calls (trace o) ∧ timed ws)
  ∧ (∀ started, result o = Ok started →
        ∃ ws st,
          mkEntry (Σ := ClientSig)
            (WaitUntilReady ws (StartedGenericContainer.container started) st
               (StartedGenericContainer.boundPorts started)) None ∈ trace o
          ∧ timed ws)
  ∧ (∀ ws c st bp, WaitUntilReady ws c st bp ∈ calls (trace o) → timed ws).
Proof.
  cbn zeta.
  assert (Htimed : ∀ c,
    ((∀ d, GenericContainer.WithStartupTimeout d ∉ chain) →
     WaitStrategy.startupTimeout
       (WaitStrategy.withStartupTimeout
          (GenericContainer.getWaitStrategy
             (GenericContainer.configured (GenericContainer.new client image tag) chain) c)
          (GenericContainer.startupTimeout
             (GenericContainer.configured (GenericContainer.new client image tag) chain)))
     = Some (mkDuration 60000 MILLISECONDS)
     ∧ toMillis (mkDuration 60000 MILLISECONDS) = toMillis (mkDuration 60 SECONDS))
    ∧ (∀ pre d post,
         chain = pre ++ GenericContainer.WithStartupTimeout d :: post →
         (∀ d', GenericContainer.WithStartupTimeout d' ∉ post) →
         WaitStrategy.startupTimeout
           (WaitStrategy.withStartupTimeout
              (GenericContainer.getWaitStrategy
                 (GenericContainer.configured
                    (GenericContainer.new client image tag) chain) c)
              (GenericContainer.startupTimeout
                 (GenericContainer.configured
                    (GenericContainer.new client image tag) chain)))
         = Some d)).
  { intros c. cbn. split.
    - intros Hnone. by rewrite (configured_startupTimeout_none _ chain Hnone).
    - intros pre d post -> Hpost.
      by rewrite (configured_startupTimeout_last _ pre d post Hpost). }
  split; [|split].
  - intros c (st & bp & Hin)%start_wait_invoked. by eexists _, st, bp.
  - intros started (st & Hin)%start_ok_waited. by eexists _, st.
  - intros ws c st bp ->%start_wait_call. apply Htimed.
Qed.

Lemma start_startup_timeout_witness :
  (∃ ws st bp,
     WaitUntilReady ws (mkContainer "c0ffee") st bp
       ∈ calls (trace (run (Sample.engine true) (GenericContainer.start Sample.web) []))
     ∧ WaitStrategy.startupTimeout ws = Some (mkDuration 60000 MILLISECONDS))
  ∧ (∃ ws st bp,
       WaitUntilReady ws (mkContainer "c0ffee") st bp
         ∈ calls (trace (run (Sample.engine true)
                           (GenericContainer.start
                              (GenericContainer.configured
                                 (GenericContainer.new Sample.client "nginx" None)
                                 [GenericContainer.WithStartupTimeout (mkDuration 5 SECONDS);
                                  GenericContainer.WithExposedPorts [80; 443]%N]))
                           []))
       ∧ WaitStrategy.startupTimeout ws = Some (mkDuration 5 SECONDS)).
Proof.
  split.
  - destruct (proj1 (start_startup_timeout (Sample.engine true) Sample.client "nginx"
                       None
                       [GenericContainer.WithExposedPorts [80; 443]%N;
                        GenericContainer.WithEnv "MODE" "test"] [])
                (mkContainer "c0ffee"))
      as (ws & st & bp & Hin & Hdefault & _).
    + vm_compute. do 5 apply list_elem_of_further. apply list_elem_of_here.
    + exists ws, st, bp. split; [exact Hin|].
      apply Hdefault. intros d Hd. among Hd.
  - destruct (proj1 (start_startup_timeout (Sample.engine true) Sample.client "nginx"
                       None
                       [GenericContainer.WithStartupTimeout (mkDuration 5 SECONDS);
                        GenericContainer.WithExposedPorts [80; 443]%N] [])
                (mkContainer "c0ffee"))
      as (ws & st & bp & Hin & _ & Hlast).
    + vm_compute. do 5 apply list_elem_of_further. apply list_elem_of_here.
    + exists ws, st, bp. split; [exact Hin|].
      apply (Hlast [] (mkDuration 5 SECONDS)
               [GenericContainer.WithExposedPorts [80; 443]%N] eq_refl).
      intros d Hd. among Hd.
Defined.

(** ** Building an image *)

Ltac unfold_build :=
  unfold GenericContainerBuilder.build, GenericContainer.hasRepoTagLocally; cbn.

(** C6, as the code has it: [build] generates two identifiers by two
    calls to its generator, the first the image name and the second the
    tag -- with a generator of fresh unique identifiers they differ
    from each other and from every identifier handed out before, and
    count as handed out afterwards --, requests the build of that
    reference with the configured context and arguments, and lists the
    known images; it returns the container when the reference is
    listed, and otherwise throws a plain error with the message
    "Failed to build image" and returns no container.  A container is
    returned only after all four calls returned. *)
Theorem build_verifies_image {W} (h : Handler ClientSig W) client
    (self : GenericContainerBuilder.t) (w : W) :
  (∀ (image tag : string) (repoTags : list RepoTag.t) w1 w2 w3 w4,
     h NextUuid w = (Ok image, w1) →
     h NextUuid w1 = (Ok tag, w2) →
     h (BuildImage (RepoTag.mk image (Some tag))
          (GenericContainerBuilder.context self)
          (GenericContainerBuilder.buildArgs self)) w2 = (Ok (), w3) →
     h FetchRepoTags w3 = (Ok repoTags, w4) →
     calls (trace (run h (GenericContainerBuilder.build client self) w))
     = [NextUuid; NextUuid;
        BuildImage (RepoTag.mk image (Some tag))
          (GenericContainerBuilder.context self)
          (GenericContainerBuilder.buildArgs self);
        FetchRepoTags]
     ∧ result (run h (GenericContainerBuilder.build client self) w)
       = if decide (RepoTag.mk image (Some tag) ∈ repoTags)
         then Ok (GenericContainer.new client image (Some tag))
         else Err buildFailure)
  ∧ (∀ built, result (run h (GenericContainerBuilder.build client self) w) = Ok built →
       Forall (λ en, failure en = None)
         (trace (run h (GenericContainerBuilder.build client self) w))
       ∧ ∃ image tag : string,
           built = GenericContainer.new client image (Some tag)
           ∧ calls (trace (run h (GenericContainerBuilder.build client self) w))
             = [NextUuid; NextUuid;
                BuildImage (RepoTag.mk image (Some tag))
                  (GenericContainerBuilder.context self)
                  (GenericContainerBuilder.buildArgs self);
                FetchRepoTags])
  ∧ (∀ issued, uniqueUuids issued h →
       ∀ r context buildArgs,
         BuildImage r context buildArgs
           ∈ calls (trace (run h (GenericContainerBuilder.build client self) w)) →
         ∃ image tag : string,
           r = RepoTag.mk image (Some tag)
           ∧ context = GenericContainerBuilder.context self
           ∧ buildArgs = GenericContainerBuilder.buildArgs self
           ∧ image ≠ tag
           ∧ (image ∉ issued w)
           ∧ (tag ∉ issued w)
           ∧ (isOk (result (run h (GenericContainerBuilder.build client self) w)) = true →
              image ∈ issued (final (run h (GenericContainerBuilder.build client self) w))
              ∧ tag ∈ issued (final (run h (GenericContainerBuilder.build client self) w)))).
Proof.
  split; [|split].
  - intros image tag repoTags w1 w2 w3 w4 H1 H2 H3 H4. unfold_build.
    rewrite H1. cbn. rewrite H2. cbn. rewrite H3. cbn. rewrite H4. cbn.
    destruct (existsb _ _) eqn:Hlisted; cbn.
    + split; [done|]. rewrite decide_True; [done|].
      apply listed_spec in Hlisted as (r & Hin & Himage & Htag).
      destruct r; cbn in *; by subst.
    + split; [done|]. rewrite decide_False; [done|].
      intros Hin. apply not_true_iff_false in Hlisted. apply Hlisted, listed_spec.
      by eexists.
  - intros built Hok. split; [by eapply run_ok_all_returned|].
    revert Hok. unfold_build. repeat answer h; try done.
    destruct (existsb _ _); cbn; [|done].
    intros [= <-]. by eexists _, _.
  - intros issued [Hfresh Hkept] r context buildArgs. unfold_build.
    destruct (h NextUuid w) as [[image|e] w1] eqn:H1; cbn.
    2:{ intros Hin. among Hin. }
    destruct (h NextUuid w1) as [[tag|e] w2] eqn:H2; cbn.
    2:{ intros Hin. among Hin. }
    destruct (Hfresh _ _ _ H1) as [Himage Hissued1].
    destruct (Hfresh _ _ _ H2) as [Htag Hissued2].
    assert (Hne : image ≠ tag).
    { intros ->. apply Htag, Hissued1. by left. }
    assert (Hnew : tag ∉ issued w).
    { intros Hin. apply Htag, Hissued1. by right. }
    destruct (h (BuildImage _ _ _) w2) as [[[]|e] w3] eqn:H3; cbn.
    2:{ intros Hin. among Hin. injection Hin as -> -> ->.
        exists image, tag. by repeat (split; [done|]). }
    assert (Hissued3 : image ∈ issued w3 ∧ tag ∈ issued w3).
    { rewrite !(Hkept (BuildImage _ _ _) _ _ _ ltac:(done) H3), !Hissued2, !Hissued1.
      auto. }
    destruct (h FetchRepoTags w3) as [[repoTags|e] w4] eqn:H4; cbn.
    2:{ intros Hin. among Hin. injection Hin as -> -> ->.
        exists image, tag. by repeat (split; [done|]). }
    destruct (existsb _ _); cbn.
    all: intros Hin; among Hin; injection Hin as -> -> ->.
    all: exists image, tag; repeat (split; [done|]); try done.
    intros _. by rewrite !(Hkept FetchRepoTags _ _ _ ltac:(done) H4).
Qed.

Lemma sample_uuids_unique builds :
  uniqueUuids SampleUuid.issued (SampleUuid.engine builds).
Proof.
  split.
  - intros [known n] id w' [= <- <-]. unfold SampleUuid.issued. cbn [snd]. split.
    + intros (i & Heq & Hin)%list_elem_of_fmap.
      apply (inj pretty), Nat2N.inj in Heq as <-.
      apply elem_of_seq in Hin. lia.
    + intros x. rewrite seq_S, fmap_app, elem_of_app. cbn.
      rewrite list_elem_of_singleton. tauto.
  - intros c [known n] r w' Hc Hcall x. unfold SampleUuid.issued.
    destruct c; try done; cbn in Hcall; by injection Hcall as <- <-.
Defined.

Lemma build_verifies_image_witness :
  (result (run (SampleUuid.engine false)
             (GenericContainerBuilder.build Sample.client Sample.builder) ([], 0%nat))
   = Err (JsError "Failed to build image")
   ∧ isOk (result (run (SampleUuid.engine true)
                     (GenericContainerBuilder.build Sample.client Sample.builder)
                     ([], 0%nat)))
     = true)
  ∧ ∃ image tag : string,
      BuildImage (RepoTag.mk image (Some tag)) "./ctx" [("V", "1")]
        ∈ calls (trace (run (SampleUuid.engine true)
                          (GenericContainerBuilder.build Sample.client Sample.builder)
                          ([], 0%nat)))
      ∧ image ≠ tag.
Proof.
  split; [split|].
  - exact (proj2 (proj1 (build_verifies_image (SampleUuid.engine false) Sample.client
                           Sample.builder ([], 0%nat))
                    _ _ _ _ _ _ _ eq_refl eq_refl eq_refl eq_refl)).
  - rewrite (proj2 (proj1 (build_verifies_image (SampleUuid.engine true) Sample.client
                             Sample.builder ([], 0%nat))
                      _ _ _ _ _ _ _ eq_refl eq_refl eq_refl eq_refl)).
    reflexivity.
  - destruct (proj2 (proj2 (build_verifies_image (SampleUuid.engine true) Sample.client
                              Sample.builder ([], 0%nat)))
                _ (sample_uuids_unique true)
                (RepoTag.mk "0" (Some "1")) "./ctx" [("V", "1")])
      as (image & tag & Hr & _ & _ & Hne & _).
    + vm_compute. do 2 apply list_elem_of_further. apply list_elem_of_here.
    + injection Hr as <- <-. exists "0", "1". split; [|done].
      vm_compute. do 2 apply list_elem_of_further. apply list_elem_of_here.
Defined.

(** C6, as stated, fails: the error of a failed verification is not a
    kind of its own.  A build call rejected by the engine with the same
    plain error gives the very same result, although the verification
    was never reached; the identifiers are fresh and unique in both
    runs. *)
Lemma build_failure_not_distinguishable :
  result (run (Sample.failing (Sample.atBuild (JsError "Failed to build image"))
                 (SampleUuid.engine true))
            (GenericContainerBuilder.build Sample.client Sample.builder) ([], 0%nat))
  = result (run (SampleUuid.engine false)
              (GenericContainerBuilder.build Sample.client Sample.builder) ([], 0%nat))
  ∧ (FetchRepoTags
     ∉ calls (trace (run (Sample.failing
                            (Sample.atBuild (JsError "Failed to build image"))
                            (SampleUuid.engine true))
                       (GenericContainerBuilder.build Sample.client Sample.builder)
                       ([], 0%nat))))
  ∧ Forall (λ en, failure en = None)
      (trace (run (SampleUuid.engine false)
                (GenericContainerBuilder.build Sample.client Sample.builder)
                ([], 0%nat)))
  ∧ last (calls (trace (run (SampleUuid.engine false)
                          (GenericContainerBuilder.build Sample.client Sample.builder)
                          ([], 0%nat))))
    = Some FetchRepoTags.
Proof.
  split; [reflexivity|]. split; [|split; [|reflexivity]].
  - vm_compute. intros Hin. among Hin.
  - vm_compute. repeat constructor.
Qed.

(** ** Stopping a started container *)

(** C7: [stop] copies the caller's options over the defaults -- a
    property the caller supplies wins, a property left out falls back
    to the default, which for the defaults of the specification is
    its graceful-stop timeout and remove-volumes false -- then stops
    the container, then removes it, and returns the stopped marker
    when both calls returned; the removal is not attempted when the
    stop failed. *)
Theorem stop_stops_then_removes {W} (h : Handler ClientSig W) (defaults : StopOptions)
    (self : StartedGenericContainer.t) (options : option OptionalStopOptions) (w : W) :
  let given := default (mkOptionalStopOptions None None) options in
  let stopTimeout := default (Some (timeout defaults)) (timeout_opt given) in
  let volumes := default (Some (removeVolumes defaults)) (removeVolumes_opt given) in
  let stopCall := ContainerStop (StartedGenericContainer.container self) stopTimeout in
  let removeCall := ContainerRemove (StartedGenericContainer.container self) volumes in
  let o := run h (StartedGenericContainer.stop defaults self options) w in
  calls (trace o) `prefix_of` [stopCall; removeCall]
  ∧ head (calls (trace o)) = Some stopCall
  ∧ (∀ stopped, result o = Ok stopped →
       calls (trace o) = [stopCall; removeCall] ∧ stopped = mkStoppedGenericContainer)
  ∧ (∀ w1 w2, h stopCall w = (Ok (), w1) → h removeCall w1 = (Ok (), w2) →
       o = mkOutcome (Σ := ClientSig) (Ok mkStoppedGenericContainer) w2
             [mkEntry (Σ := ClientSig) stopCall None; mkEntry (Σ := ClientSig) removeCall None])
  ∧ (∀ e w1, h stopCall w = (Err e, w1) →
       o = mkOutcome (Σ := ClientSig) (Err e) w1
             [mkEntry (Σ := ClientSig) stopCall (Some e)])
  ∧ (removeVolumes defaults = false → removeVolumes_opt given = None →
       volumes = Some false).
Proof.
  cbn zeta. unfold StartedGenericContainer.stop, StartedGenericContainer.spread. cbn.
  set (stopCall := ContainerStop _ _). set (removeCall := ContainerRemove _ _).
  split; [|split; [|split; [|split; [|split]]]].
  - repeat answer h; by eexists.
  - by answer h.
  - intros stopped. repeat answer h; try done. by destruct stopped.
  - intros w1 w2 H1 H2. by rewrite H1, H2.
  - intros e w1 H1. by rewrite H1.
  - by intros -> ->.
Qed.

Lemma stop_stops_then_removes_witness :
  calls (trace (run (Sample.engine true)
                  (StartedGenericContainer.stop (mkStopOptions (mkDuration 10 SECONDS) false)
                     (startedHandle Sample.web BoundPorts.empty (mkContainer "c0ffee")
                        (InspectResult.mk "/web" true))
                     (Some (mkOptionalStopOptions (Some (Some (mkDuration 3 SECONDS))) None)))
                  []))
  = [ContainerStop (mkContainer "c0ffee") (Some (mkDuration 3 SECONDS));
     ContainerRemove (mkContainer "c0ffee") (Some false)].
Proof.
  exact (proj1 (proj1 (proj2 (proj2
    (stop_stops_then_removes (Sample.engine true)
       (mkStopOptions (mkDuration 10 SECONDS) false)
       (startedHandle Sample.web BoundPorts.empty (mkContainer "c0ffee")
          (InspectResult.mk "/web" true))
       (Some (mkOptionalStopOptions (Some (Some (mkDuration 3 SECONDS))) None))
       []))) _ eq_refl)).
Defined.

(** ** Listing the known images *)

Lemma split_absent sep s :
  occurs sep s = false → DockerodeClient.split sep s = [s].
Proof.
  induction s as [|c s IH]; cbn; [done|].
  intros [Hc Hs]%orb_false_iff. by rewrite (IH Hs), Hc.
Qed.

(** [split] always yields at least one piece. *)
Lemma split_pieces sep s :
  ∃ piece pieces, DockerodeClient.split sep s = piece :: pieces.
Proof.
  induction s as [|c s (piece & pieces & IH)]; cbn; [by eexists _, _|].
  rewrite IH. destruct (Ascii.eqb c sep); by eexists _, _.
Qed.

Lemma split_at_first sep a b :
  occurs sep a = false →
  DockerodeClient.split sep (a +:+ String sep b) = a :: DockerodeClient.split sep b.
Proof.
  induction a as [|c a IH]; intros Ha.
  - change (EmptyString +:+ String sep b) with (String sep b). cbn -[Ascii.eqb].
    destruct (split_pieces sep b) as (piece & pieces & ->).
    by rewrite Ascii.eqb_refl.
  - change (String c a +:+ String sep b) with (String c (a +:+ String sep b)).
    cbn in Ha. apply orb_false_iff in Ha as [Hc Ha].
    cbn -[Ascii.eqb]. by rewrite (IH Ha), Hc.
Qed.

(** A name and a tag without colon, joined by one, are read back. *)
Lemma toRepoTag_name_tag name tag :
  occurs ":" name = false → occurs ":" tag = false →
  DockerodeClient.toRepoTag (name +:+ ":" +:+ tag) = RepoTag.mk name (Some tag).
Proof.
  intros Hname Htag. unfold DockerodeClient.toRepoTag.
  change (":" +:+ tag) with (String ":" tag).
  by rewrite (split_at_first _ _ _ Hname), (split_absent _ _ Htag).
Qed.

(** The references one image contributes to the listing. *)
Lemma collectRepoTags_fold acc images :
  foldl DockerodeClient.collectRepoTags acc images
  = acc ++ (filter (λ image, DockerodeClient.isDanglingImage image = false) images
            ≫= λ image, DockerodeClient.toRepoTag
                          <$> default [] (DockerodeClient.RepoTags image)).
Proof.
  revert acc. induction images as [|image images IH]; intros acc.
  - cbn. by rewrite app_nil_r.
  - rewrite filter_cons. cbn [foldl]. rewrite IH.
    unfold DockerodeClient.collectRepoTags.
    destruct (decide _) as [Htagged|Hdangling].
    + unfold DockerodeClient.isDanglingImage in Htagged. rewrite bind_cons.
      destruct (DockerodeClient.RepoTags image); [|done].
      cbn [default]. by rewrite app_assoc.
    + unfold DockerodeClient.isDanglingImage in Hdangling.
      by destruct (DockerodeClient.RepoTags image).
Qed.

(** C8: when the engine's listing returns, [fetchRepoTags] returns
    without error the references of the images that carry tags, in
    listing order: an image whose tags are [null] contributes nothing,
    every entry is read from a tag string of an image that has tags,
    and a [name:tag] string reads as that name and that tag. *)
Theorem fetchRepoTags_excludes_dangling {W}
    (h : Handler DockerodeClient.DockerodeSig W) (w : W) images w' :
  h DockerodeClient.listImages w = (Ok images, w') →
  ∃ repoTags,
    run h DockerodeClient.fetchRepoTags w
    = mkOutcome (Σ := DockerodeClient.DockerodeSig) (Ok repoTags) w'
        [mkEntry (Σ := DockerodeClient.DockerodeSig) DockerodeClient.listImages None]
    ∧ repoTags
      = (filter (λ image, DockerodeClient.isDanglingImage image = false) images
         ≫= λ image, DockerodeClient.toRepoTag
                       <$> default [] (DockerodeClient.RepoTags image))
    ∧ (∀ r, r ∈ repoTags
            ↔ ∃ image tags s,
                image ∈ images
                ∧ DockerodeClient.RepoTags image = Some tags
                ∧ s ∈ tags
                ∧ r = DockerodeClient.toRepoTag s)
    ∧ (∀ image tags name tag,
         image ∈ images →
         DockerodeClient.RepoTags image = Some tags →
         name +:+ ":" +:+ tag ∈ tags →
         occurs ":" name = false → occurs ":" tag = false →
         RepoTag.mk name (Some tag) ∈ repoTags).
Proof.
  intros Hlist. eexists. split; [|split].
  - unfold DockerodeClient.fetchRepoTags. cbn. rewrite Hlist. cbn.
    by rewrite collectRepoTags_fold.
  - done.
  - cbn.
    assert (Hmem : ∀ r,
      r ∈ filter (λ image, DockerodeClient.isDanglingImage image = false) images
            ≫= (λ image, DockerodeClient.toRepoTag
                           <$> default [] (DockerodeClient.RepoTags image))
      ↔ ∃ image tags s,
          image ∈ images ∧ DockerodeClient.RepoTags image = Some tags
          ∧ s ∈ tags ∧ r = DockerodeClient.toRepoTag s).
    { intros r. rewrite list_elem_of_bind. split.
      - intros (image & Hr & [Htagged Himage]%list_elem_of_filter).
        unfold DockerodeClient.isDanglingImage in Htagged.
        destruct (DockerodeClient.RepoTags image) as [tags|] eqn:Htags; [|done].
        cbn in Hr. apply list_elem_of_fmap in Hr as (s & -> & Hs).
        by exists image, tags, s.
      - intros (image & tags & s & Himage & Htags & Hs & ->).
        exists image. split.
        + rewrite Htags. cbn. by apply list_elem_of_fmap_2.
        + apply list_elem_of_filter. split; [|done].
          unfold DockerodeClient.isDanglingImage. by rewrite Htags. }
    split; [exact Hmem|].
    intros image tags name tag Himage Htags Hs Hname Htag.
    apply Hmem. exists image, tags, (name +:+ ":" +:+ tag).
    by rewrite toRepoTag_name_tag.
Qed.

Lemma fetchRepoTags_excludes_dangling_witness :
  result (run Sample.dockerode DockerodeClient.fetchRepoTags ())
  = Ok [RepoTag.mk "nginx" (Some "latest"); RepoTag.mk "nginx" (Some "1.25");
        RepoTag.mk "redis" (Some "7")].
Proof.
  destruct (fetchRepoTags_excludes_dangling Sample.dockerode () Sample.images ()
              eq_refl) as (repoTags & -> & -> & _).
  reflexivity.
Defined.

(** ** The port map *)

Lemma find_set l i h p :
  BoundPorts.find (BoundPorts.set l i h) p
  = if N.eqb i p then Some h else BoundPorts.find l p.
Proof.
  induction l as [|[i' h'] l IH]; cbn.
  - by destruct (N.eqb i p).
  - destruct (N.eqb i' i) eqn:Hi; cbn.
    + apply N.eqb_eq in Hi as ->. by destruct (N.eqb i p).
    + rewrite IH. destruct (N.eqb_spec i' p) as [->|_]; [|done].
      destruct (N.eqb_spec i p) as [->|_]; [|done].
      by rewrite N.eqb_refl in Hi.
Qed.

(** Binding other ports leaves the lookup of [p] as it was. *)
Lemma find_bindAll_absent b (ports hostPorts : list N) p :
  p ∉ ports →
  BoundPorts.find (BoundPorts.iterator (PortBinder.bindAll b ports hostPorts)) p
  = BoundPorts.find (BoundPorts.iterator b) p.
Proof.
  revert b hostPorts. induction ports as [|q ports IH]; intros b hostPorts Hp; [done|].
  destruct hostPorts as [|h hostPorts]; [done|]. cbn.
  apply not_elem_of_cons in Hp as [Hq Hp].
  rewrite (IH _ _ Hp). cbn. rewrite find_set.
  destruct (N.eqb q p) eqn:E; [|done]. by apply N.eqb_eq in E.
Qed.

(** A port is looked up to the host port of its last request. *)
Lemma find_bindAll_last b (ports hostPorts : list N) i p hp :
  ports !! i = Some p → hostPorts !! i = Some hp →
  (∀ j, i < j → ports !! j ≠ Some p) →
  BoundPorts.find (BoundPorts.iterator (PortBinder.bindAll b ports hostPorts)) p
  = Some hp.
Proof.
  revert b hostPorts i.
  induction ports as [|q ports IH]; intros b hostPorts i Hp Hhp Hlast; [done|].
  destruct hostPorts as [|h hostPorts]; [done|]. cbn.
  destruct i as [|i]; cbn in Hp, Hhp.
  - injection Hp as ->. injection Hhp as ->.
    rewrite find_bindAll_absent.
    + cbn. by rewrite find_set, N.eqb_refl.
    + intros [j Hj]%list_elem_of_lookup. apply (Hlast (S j)); [lia|done].
  - apply (IH _ _ i); [done|done|].
    intros j Hij. apply (Hlast (S j)). lia.
Qed.

(** The port map a handle holds is one the port binder returned for
    the ports of the builder. *)
Lemma start_bound_ports {W} (h : Handler ClientSig W) self (w : W) started :
  result (run h (GenericContainer.start self) w) = Ok started →
  ∃ w1 w2,
    h (PortBinderBind (GenericContainer.ports self)) w1
    = (Ok (StartedGenericContainer.boundPorts started), w2).
Proof.
  unfold_start. answer h; [|done].
  destruct (existsb _ _); cbn.
  all: repeat answer h; try done.
  all: intros [= <-]; by eexists _, _.
Qed.

(** C9: on a handle returned by [start], with a port binder that
    behaves as specified, [getMappedPort] is the lookup of the port
    map: it fails with the not-bound error for every port that was not
    requested, and for a requested port it returns the host port that
    was claimed for its last request. *)
Theorem getMappedPort_requested_only {W} (h : Handler ClientSig W)
    (self : GenericContainer.t) (w : W) started :
  bindsAsSpecified h →
  result (run h (GenericContainer.start self) w) = Ok started →
  ∃ hostPorts : list N,
    length hostPorts = length (GenericContainer.ports self)
    ∧ ∀ p : N,
        StartedGenericContainer.getMappedPort started p
        = BoundPorts.getBinding (StartedGenericContainer.boundPorts started) p
        ∧ (p ∉ GenericContainer.ports self →
           StartedGenericContainer.getMappedPort started p = Err (NotBoundError p))
        ∧ (∀ i hp,
             GenericContainer.ports self !! i = Some p →
             hostPorts !! i = Some hp →
             (∀ j, i < j → GenericContainer.ports self !! j ≠ Some p) →
             StartedGenericContainer.getMappedPort started p = Ok hp).
Proof.
  intros Hbinder (w1 & w2 & Hbind)%start_bound_ports.
  destruct (Hbinder _ _ _ _ Hbind) as (hostPorts & Hlen & Hbound).
  exists hostPorts. split; [done|]. intros p.
  unfold StartedGenericContainer.getMappedPort, BoundPorts.getBinding.
  rewrite Hbound. unfold PortBinder.bound. split; [done|split].
  - intros Hp. by rewrite (find_bindAll_absent _ _ _ _ Hp).
  - intros i hp Hi Hhp Hlast. by rewrite (find_bindAll_last _ _ _ i p hp).
Qed.

Lemma sample_engine_binds : bindsAsSpecified (Sample.engine true).
Proof.
  intros ports w boundPorts w' [= <- _]. exists (Sample.hostPortsFor ports).
  split; [|done]. unfold Sample.hostPortsFor. by rewrite length_fmap, length_seq.
Defined.

Lemma getMappedPort_requested_only_witness :
  StartedGenericContainer.getMappedPort
    (startedHandle Sample.web (PortBinder.bound [80; 443]%N [32768; 32769]%N)
       (mkContainer "c0ffee") (InspectResult.mk "/web" true)) 8080%N
  = Err (NotBoundError 8080).
Proof.
  destruct (getMappedPort_requested_only (Sample.engine true) Sample.web []
              (startedHandle Sample.web (PortBinder.bound [80; 443]%N [32768; 32769]%N)
                 (mkContainer "c0ffee") (InspectResult.mk "/web" true))
              sample_engine_binds eq_refl) as (hostPorts & _ & Hports).
  apply (Hports 8080%N). intros Hin. among Hin.
Defined.

(** ** The creation request *)

Section CreateRequest.
Variable repoTagToString : RepoTag.t → string.

Lemma exposedPorts_dom (pairs : list (N * N)) (acc : gmap string ()) :
  dom (foldl (λ ports '(internalPort, _), <[pretty internalPort := ()]> ports)
         acc pairs)
  = dom acc ∪ list_to_set ((λ pair, pretty pair.1) <$> pairs).
Proof.
  revert acc. induction pairs as [|[i hp] pairs IH]; intros acc; cbn.
  - by rewrite (right_id_L ∅ (∪)).
  - rewrite IH, dom_insert_L.
    by rewrite (comm_L (∪) {[pretty i]}), <-(assoc_L (∪)).
Qed.

Lemma portBindings_dom (pairs : list (N * N))
    (acc : gmap string (list DockerodeClient.PortBinding)) :
  dom (foldl (λ bindings '(internalPort, hostPort),
                <[pretty internalPort :=
                    [DockerodeClient.mkPortBinding (pretty hostPort)]]> bindings)
         acc pairs)
  = dom acc ∪ list_to_set ((λ pair, pretty pair.1) <$> pairs).
Proof.
  revert acc. induction pairs as [|[i hp] pairs IH]; intros acc; cbn.
  - by rewrite (right_id_L ∅ (∪)).
  - rewrite IH, dom_insert_L.
    by rewrite (comm_L (∪) {[pretty i]}), <-(assoc_L (∪)).
Qed.

(** Every binding in the request is the single entry written for
    some pair of the iteration. *)
Lemma portBindings_lookup (pairs : list (N * N))
    (acc : gmap string (list DockerodeClient.PortBinding)) key entries :
  foldl (λ bindings '(internalPort, hostPort),
           <[pretty internalPort :=
               [DockerodeClient.mkPortBinding (pretty hostPort)]]> bindings)
    acc pairs !! key = Some entries →
  acc !! key = Some entries
  ∨ ∃ internalPort hostPort,
      (internalPort, hostPort) ∈ pairs
      ∧ key = pretty internalPort
      ∧ entries = [DockerodeClient.mkPortBinding (pretty hostPort)].
Proof.
  revert acc. induction pairs as [|[i hp] pairs IH]; intros acc; cbn.
  - by left.
  - intros [Hacc|(i' & hp' & Hin & -> & ->)]%IH.
    + destruct (decide (pretty i = key)) as [<-|Hne].
      * rewrite lookup_insert_eq in Hacc. injection Hacc as <-.
        right. exists i, hp. split; [apply list_elem_of_here|done].
      * rewrite lookup_insert_ne in Hacc by done. by left.
    + right. exists i', hp'. split; [by apply list_elem_of_further|done].
Qed.

(** A port paired with one host port only is bound to that port. *)
Lemma portBindings_unique (pairs : list (N * N))
    (acc : gmap string (list DockerodeClient.PortBinding)) internalPort hostPort :
  (internalPort, hostPort) ∈ pairs →
  (∀ hostPort', (internalPort, hostPort') ∈ pairs → hostPort' = hostPort) →
  foldl (λ bindings '(internalPort, hostPort),
           <[pretty internalPort :=
               [DockerodeClient.mkPortBinding (pretty hostPort)]]> bindings)
    acc pairs !! pretty internalPort
  = Some [DockerodeClient.mkPortBinding (pretty hostPort)].
Proof.
  induction pairs as [|[i hp] pairs IH] using rev_ind; intros Hin Hunique.
  - by apply elem_of_nil in Hin.
  - rewrite foldl_app. cbn.
    destruct (decide (i = internalPort)) as [->|Hne].
    + rewrite lookup_insert_eq. rewrite (Hunique hp); [done|].
      apply elem_of_app. right. apply list_elem_of_here.
    + rewrite lookup_insert_ne by (by intros ?%(inj pretty)).
      apply IH.
      * apply elem_of_app in Hin as [Hin|Hin%list_elem_of_singleton]; [done|].
        by injection Hin as -> ->.
      * intros hostPort' Hin'. apply Hunique, elem_of_app. by left.
Qed.

(** C10: in the request [create] sends, the exposed ports and the
    host-port bindings have the same keys, the decimal forms of the
    internal ports of the port map's iteration; every binding is a
    single host-port entry written for a pair of that iteration, and
    an internal port paired with one host port is bound to it. *)
Theorem create_ports_consistent {W}
    (h : Handler DockerodeClient.DockerodeSig W) (w : W) (options : CreateOptions) :
  let request := DockerodeClient.createRequest repoTagToString options in
  let pairs := BoundPorts.iterator (co_boundPorts options) in
  head (calls (trace (run h (DockerodeClient.create repoTagToString options) w)))
  = Some (DockerodeClient.createContainer request)
  ∧ dom (DockerodeClient.opt_ExposedPorts request)
    = dom (DockerodeClient.PortBindings (DockerodeClient.opt_HostConfig request))
  ∧ dom (DockerodeClient.opt_ExposedPorts request)
    = list_to_set ((λ pair, pretty pair.1) <$> pairs)
  ∧ (∀ key entries,
       DockerodeClient.PortBindings (DockerodeClient.opt_HostConfig request) !! key
       = Some entries →
       ∃ internalPort hostPort,
         (internalPort, hostPort) ∈ pairs
         ∧ key = pretty internalPort
         ∧ entries = [DockerodeClient.mkPortBinding (pretty hostPort)])
  ∧ (∀ internalPort hostPort,
       (internalPort, hostPort) ∈ pairs →
       (∀ hostPort', (internalPort, hostPort') ∈ pairs → hostPort' = hostPort) →
       DockerodeClient.PortBindings (DockerodeClient.opt_HostConfig request)
         !! pretty internalPort
       = Some [DockerodeClient.mkPortBinding (pretty hostPort)]).
Proof using Type.
  cbn zeta. unfold DockerodeClient.createRequest. cbn.
  unfold DockerodeClient.getExposedPorts, DockerodeClient.getPortBindings.
  split; [by answer h|].
  rewrite exposedPorts_dom, portBindings_dom.
  rewrite !dom_empty_L, !(left_id_L ∅ (∪)).
  split; [done|]. split; [done|]. split.
  - intros key entries [Hempty|Hpair]%portBindings_lookup; [|done].
    by rewrite lookup_empty in Hempty.
  - intros internalPort hostPort. apply portBindings_unique.
Qed.
End CreateRequest.

Lemma create_ports_consistent_witness :
  DockerodeClient.PortBindings
    (DockerodeClient.opt_HostConfig
       (DockerodeClient.createRequest (λ r, RepoTag.image r)
          (mkCreateOptions (RepoTag.mk "nginx" (Some "latest")) [] [] [] []
             (PortBinder.bound [80; 443]%N [32768; 32769]%N) None)))
    !! "443"
  = Some [DockerodeClient.mkPortBinding "32769"].
Proof.
  refine (proj2 (proj2 (proj2 (proj2
    (create_ports_consistent (λ r, RepoTag.image r) Sample.dockerode ()
       (mkCreateOptions (RepoTag.mk "nginx" (Some "latest")) [] [] [] []
          (PortBinder.bound [80; 443]%N [32768; 32769]%N) None)))))
    443%N 32769%N _ _).
  - cbn. apply list_elem_of_further, list_elem_of_here.
  - cbn. intros hostPort' Hin. among Hin. by injection Hin as ->.
Defined.

(** * Further properties *)

(** ** Objects written by key *)

Lemma obj_has_spec {V} (o : list (string * V)) key :
  obj_has o key = true ↔ key ∈ o.*1.
Proof.
  unfold obj_has. rewrite existsb_exists. split.
  - intros ([k v] & Hin%list_elem_of_In & Heq). cbn in Heq.
    apply String.eqb_eq in Heq as ->.
    apply list_elem_of_fmap. by exists (key, v).
  - intros ([k v] & -> & Hin)%list_elem_of_fmap. exists (k, v).
    split; [by apply list_elem_of_In|apply String.eqb_refl].
Qed.

Lemma obj_replace_keys {V} (o : list (string * V)) key value :
  (obj_replace o key value).*1 = o.*1.
Proof.
  induction o as [|[k0 v0] o IH]; cbn; [done|].
  destruct (String.eqb k0 key); cbn; [done|]. by rewrite IH.
Qed.

Lemma obj_replace_same {V} (o : list (string * V)) key value :
  key ∈ o.*1 → (key, value) ∈ obj_replace o key value.
Proof.
  induction o as [|[k0 v0] o IH]; cbn; [by intros ?%elem_of_nil|].
  destruct (String.eqb_spec k0 key) as [->|Hne].
  - intros _. apply list_elem_of_here.
  - intros [->|Hin]%elem_of_cons; [done|]. by apply list_elem_of_further, IH.
Qed.

Lemma obj_replace_other {V} (o : list (string * V)) key value k (v : V) :
  k ≠ key → (k, v) ∈ obj_replace o key value ↔ (k, v) ∈ o.
Proof.
  intros Hk. induction o as [|[k0 v0] o IH]; cbn; [done|].
  destruct (String.eqb_spec k0 key) as [->|Hne].
  - rewrite !elem_of_cons. split; (intros [[= -> _]|Hin]; [done|by right]).
  - rewrite !elem_of_cons, IH. tauto.
Qed.

Lemma obj_replace_overrides {V} (o : list (string * V)) key value (v : V) :
  NoDup o.*1 → (key, v) ∈ obj_replace o key value → v = value.
Proof.
  induction o as [|[k0 v0] o IH]; cbn; intros Hnd; [by intros ?%elem_of_nil|].
  apply NoDup_cons in Hnd as [Hk0 Hnd].
  destruct (String.eqb_spec k0 key) as [->|Hne].
  - intros [[= ->]|Hin]%elem_of_cons; [done|].
    destruct Hk0. apply list_elem_of_fmap. by exists (key, v).
  - intros [[= -> _]|Hin]%elem_of_cons; [done|]. by apply IH.
Qed.

Lemma obj_add_index_perm {V} (o : list (string * V)) index key value :
  obj_add_index o index key value ≡ₚ (key, value) :: o.
Proof.
  induction o as [|[k0 v0] o IH]; cbn; [done|].
  destruct (arrayIndex k0) as [m|]; [|done].
  destruct (m <? index)%N; [|done].
  rewrite IH. apply Permutation_swap.
Qed.

(** A key that the object does not have yet is added, at the place
    its kind gives it. *)
Lemma obj_set_new {V} (o : list (string * V)) key value :
  key ≠ "__proto__" → key ∉ o.*1 → obj_set o key value ≡ₚ (key, value) :: o.
Proof.
  intros Hproto Hnew. unfold obj_set.
  destruct (String.eqb_spec key "__proto__") as [->|_]; [done|].
  destruct (obj_has o key) eqn:Hhas; [by apply obj_has_spec in Hhas|].
  destruct (arrayIndex key); [apply obj_add_index_perm|].
  by rewrite Permutation_app_comm.
Qed.

Lemma obj_set_old {V} (o : list (string * V)) key value :
  key ≠ "__proto__" → key ∈ o.*1 → obj_set o key value = obj_replace o key value.
Proof.
  intros Hproto Hold. unfold obj_set.
  destruct (String.eqb_spec key "__proto__") as [->|_]; [done|].
  apply obj_has_spec in Hold. by rewrite Hold.
Qed.

Lemma obj_set_proto {V} (o : list (string * V)) value :
  obj_set o "__proto__" value = o.
Proof. reflexivity. Qed.

Lemma obj_set_NoDup {V} (o : list (string * V)) key value :
  NoDup o.*1 → NoDup (obj_set o key value).*1.
Proof.
  intros Hnd. destruct (decide (key = "__proto__")) as [->|Hproto]; [done|].
  destruct (decide (key ∈ o.*1)) as [Hold|Hnew].
  - by rewrite (obj_set_old _ _ _ Hproto Hold), obj_replace_keys.
  - rewrite (obj_set_new _ _ _ Hproto Hnew). cbn. by apply NoDup_cons.
Qed.

Lemma obj_set_same {V} (o : list (string * V)) key value :
  key ≠ "__proto__" → (key, value) ∈ obj_set o key value.
Proof.
  intros Hproto. destruct (decide (key ∈ o.*1)) as [Hold|Hnew].
  - rewrite (obj_set_old _ _ _ Hproto Hold). by apply obj_replace_same.
  - rewrite (obj_set_new _ _ _ Hproto Hnew). apply list_elem_of_here.
Qed.

Lemma obj_set_other {V} (o : list (string * V)) key value k (v : V) :
  k ≠ key → (k, v) ∈ obj_set o key value ↔ (k, v) ∈ o.
Proof.
  intros Hk. destruct (decide (key = "__proto__")) as [->|Hproto]; [done|].
  destruct (decide (key ∈ o.*1)) as [Hold|Hnew].
  - rewrite (obj_set_old _ _ _ Hproto Hold). by apply obj_replace_other.
  - rewrite (obj_set_new _ _ _ Hproto Hnew), elem_of_cons.
    split; [|by right]. by intros [[= -> _]|Hin].
Qed.

Lemma obj_set_overrides {V} (o : list (string * V)) key value (v : V) :
  key ≠ "__proto__" → NoDup o.*1 → (key, v) ∈ obj_set o key value → v = value.
Proof.
  intros Hproto Hnd. destruct (decide (key ∈ o.*1)) as [Hold|Hnew].
  - rewrite (obj_set_old _ _ _ Hproto Hold). by apply obj_replace_overrides.
  - rewrite (obj_set_new _ _ _ Hproto Hnew).
    intros [[= ->]|Hin]%elem_of_cons; [done|].
    destruct Hnew. apply list_elem_of_fmap. by exists (key, v).
Qed.

(** An object written from [{}] never has [__proto__] among its own
    keys. *)
Lemma obj_set_no_proto {V} (o : list (string * V)) key value :
  "__proto__" ∉ o.*1 → "__proto__" ∉ (obj_set o key value).*1.
Proof.
  intros Ho. destruct (decide (key = "__proto__")) as [->|Hproto]; [done|].
  destruct (decide (key ∈ o.*1)) as [Hold|Hnew].
  - by rewrite (obj_set_old _ _ _ Hproto Hold), obj_replace_keys.
  - rewrite (obj_set_new _ _ _ Hproto Hnew). cbn.
    by intros [?|?]%elem_of_cons.
Qed.

(** ** The configuration calls of the builder *)

Lemma configured_env_NoDup self chain :
  NoDup (GenericContainer.env self).*1 →
  NoDup (GenericContainer.env (GenericContainer.configured self chain)).*1.
Proof.
  intros Hnd. induction chain as [|c chain IH] using rev_ind; [done|].
  rewrite configured_snoc. destruct c; try done. cbn. by apply obj_set_NoDup.
Qed.

(** X1: whatever calls configured the builder, its environment holds
    every key once. *)
Theorem env_keys_unique client image tag chain :
  NoDup (GenericContainer.env
           (GenericContainer.configured
              (GenericContainer.new client image tag) chain)).*1.
Proof. apply configured_env_NoDup. cbn. constructor. Qed.

Lemma configured_env_no_proto self chain :
  "__proto__" ∉ (GenericContainer.env self).*1 →
  "__proto__" ∉ (GenericContainer.env (GenericContainer.configured self chain)).*1.
Proof.
  intros Hself. induction chain as [|c chain IH] using rev_ind; [done|].
  rewrite configured_snoc. destruct c; try done. cbn. by apply obj_set_no_proto.
Qed.

(** X2: on such a builder, [withEnv key value] with a key other than
    [__proto__] leaves [value] as the only value of [key], replacing an
    earlier one; whatever the key, it leaves every other key as it
    was; with the key [__proto__] it stores nothing, and the
    environment never has that key. *)
Theorem withEnv_overrides client image tag chain key value :
  let self := GenericContainer.configured (GenericContainer.new client image tag) chain in
  (key ≠ "__proto__" →
   ∀ v, (key, v) ∈ GenericContainer.env (GenericContainer.withEnv self key value)
        ↔ v = value)
  ∧ (∀ k v, k ≠ key →
       (k, v) ∈ GenericContainer.env (GenericContainer.withEnv self key value)
       ↔ (k, v) ∈ GenericContainer.env self)
  ∧ GenericContainer.env (GenericContainer.withEnv self "__proto__" value)
    = GenericContainer.env self
  ∧ "__proto__" ∉ (GenericContainer.env self).*1.
Proof.
  cbn zeta. cbn [GenericContainer.withEnv GenericContainer.env].
  split; [|split; [|split]].
  - intros Hproto v. split.
    + apply obj_set_overrides; [done|]. apply configured_env_NoDup. cbn. constructor.
    + intros ->. by apply obj_set_same.
  - intros k v Hk. by apply obj_set_other.
  - apply obj_set_proto.
  - apply configured_env_no_proto. cbn. by intros ?%elem_of_nil.
Qed.

Lemma withEnv_overrides_witness :
  ("MODE", "test")
    ∈ GenericContainer.env
        (GenericContainer.withEnv
           (GenericContainer.configured (GenericContainer.new Sample.client "nginx" None)
              [GenericContainer.WithEnv "MODE" "dev";
               GenericContainer.WithEnv "LEVEL" "3"])
           "MODE" "test")
  ∧ ("LEVEL", "3")
    ∈ GenericContainer.env
        (GenericContainer.withEnv
           (GenericContainer.configured (GenericContainer.new Sample.client "nginx" None)
              [GenericContainer.WithEnv "MODE" "dev";
               GenericContainer.WithEnv "LEVEL" "3"])
           "MODE" "test").
Proof.
  destruct (withEnv_overrides Sample.client "nginx" None
              [GenericContainer.WithEnv "MODE" "dev";
               GenericContainer.WithEnv "LEVEL" "3"] "MODE" "test")
    as (Hsame & Hother & _).
  split.
  - by apply Hsame.
  - apply Hother; [done|]. cbn. apply list_elem_of_further, list_elem_of_here.
Defined.

(** X3: bind mounts accumulate: the builder holds one mount per
    [withBindMount] call, in call order, with mode [rw] where the mode
    was left out; no other call touches them. *)
Theorem bindMounts_accumulate client image tag chain :
  GenericContainer.bindMounts
    (GenericContainer.configured (GenericContainer.new client image tag) chain)
  = omap mountOf chain.
Proof.
  induction chain as [|c chain IH] using rev_ind; [done|].
  rewrite configured_snoc, omap_app. cbn. rewrite <-IH.
  destruct c; cbn; by rewrite ?app_nil_r.
Qed.

(** X4: exposed ports do not accumulate: the builder holds the ports
    of its last [withExposedPorts] call only. *)
Theorem withExposedPorts_replaces self pre ports post :
  (∀ ports', GenericContainer.WithExposedPorts ports' ∉ post) →
  GenericContainer.ports
    (GenericContainer.configured self
       (pre ++ GenericContainer.WithExposedPorts ports :: post))
  = ports.
Proof.
  induction post as [|c post IH] using rev_ind; intros Hnone.
  - by rewrite configured_snoc.
  - rewrite app_comm_cons, app_assoc, configured_snoc.
    assert (Hc : ∀ ports', c ≠ GenericContainer.WithExposedPorts ports').
    { intros ports' ->. apply (Hnone ports'), elem_of_app. right.
      apply list_elem_of_here. }
    etrans; [|apply IH].
    + destruct c as [?|?|? ?|?|exposed|? ? ?|?|?]; try reflexivity.
      by destruct (Hc exposed).
    + intros ports' Hin. apply (Hnone ports'), elem_of_app. by left.
Qed.

Lemma withExposedPorts_replaces_witness :
  GenericContainer.ports
    (GenericContainer.configured (GenericContainer.new Sample.client "nginx" None)
       [GenericContainer.WithExposedPorts [80; 443]%N;
        GenericContainer.WithExposedPorts [8080]%N;
        GenericContainer.WithName "web"])
  = [8080]%N.
Proof.
  apply (withExposedPorts_replaces _ [GenericContainer.WithExposedPorts [80; 443]%N]
           [8080]%N [GenericContainer.WithName "web"]).
  intros ports' Hin. among Hin.
Defined.

(** X5: no configuration call changes the image: the builder keeps the
    reference it was constructed with, whose tag is "latest" when none
    was given. *)
Theorem configured_keeps_image client image tag chain :
  GenericContainer.repoTag
    (GenericContainer.configured (GenericContainer.new client image tag) chain)
  = RepoTag.mk image (Some (default "latest" tag)).
Proof.
  induction chain as [|c chain IH] using rev_ind; [done|].
  rewrite configured_snoc, <-IH. by destruct c.
Qed.

(** ** Build arguments *)

Lemma withBuildArgs_snoc self args key value :
  withBuildArgs self (args ++ [(key, value)])
  = GenericContainerBuilder.withBuildArg (withBuildArgs self args) key value.
Proof. unfold withBuildArgs. by rewrite foldl_app. Qed.

Lemma withBuildArgs_NoDup context args :
  NoDup (GenericContainerBuilder.buildArgs
           (withBuildArgs (fromDockerfile context) args)).*1.
Proof.
  induction args as [|[key value] args IH] using rev_ind; [constructor|].
  rewrite withBuildArgs_snoc. cbn. by apply obj_set_NoDup.
Qed.

(** X6: after any chain of [withBuildArg] calls the builder holds, for
    each key other than [__proto__], exactly the value of the last call
    for that key, and holds nothing for the key [__proto__]; the chain
    never changes the build context. *)
Theorem withBuildArg_last_wins context args key value :
  ((key, value)
     ∈ GenericContainerBuilder.buildArgs (withBuildArgs (fromDockerfile context) args)
   ↔ key ≠ "__proto__"
     ∧ ∃ pre post, args = pre ++ (key, value) :: post ∧ key ∉ post.*1)
  ∧ GenericContainerBuilder.context (withBuildArgs (fromDockerfile context) args)
    = context.
Proof.
  split.
  - induction args as [|[k0 v0] args IH] using rev_ind.
    + cbn. split; [by intros ?%elem_of_nil|].
      intros (_ & pre & post & Heq & _). by destruct pre.
    + rewrite withBuildArgs_snoc. cbn.
      destruct (decide (key = k0)) as [->|Hne].
      * destruct (decide (k0 = "__proto__")) as [->|Hproto].
        { rewrite obj_set_proto, IH. split; by intros [? _]. }
        split.
        -- intros ->%(obj_set_overrides _ _ _ _ Hproto
                        (withBuildArgs_NoDup context args)).
           split; [done|]. exists args, []. split; [done|]. by intros ?%elem_of_nil.
        -- intros (_ & pre & post & Heq & Hpost).
           destruct post as [|p post _] using rev_ind.
           ++ apply app_inj_tail in Heq as [_ [= -> ]]. by apply obj_set_same.
           ++ rewrite app_comm_cons, app_assoc in Heq.
              apply app_inj_tail in Heq as [_ <-].
              destruct Hpost. rewrite fmap_app. apply elem_of_app. right.
              apply list_elem_of_here.
      * rewrite (obj_set_other _ _ _ _ _ Hne), IH. split.
        -- intros (Hproto & pre & post & -> & Hpost). split; [done|].
           exists pre, (post ++ [(k0, v0)]). split; [by rewrite <-app_assoc|].
           rewrite fmap_app. intros [Hin|Hin%list_elem_of_singleton]%elem_of_app; done.
        -- intros (Hproto & pre & post & Heq & Hpost). split; [done|].
           destruct post as [|p post _] using rev_ind.
           ++ apply app_inj_tail in Heq as [_ [= <- _]]. done.
           ++ rewrite app_comm_cons, app_assoc in Heq.
              apply app_inj_tail in Heq as [-> _].
              exists pre, post. split; [done|].
              intros Hin. apply Hpost. rewrite fmap_app. apply elem_of_app. by left.
  - induction args as [|[k0 v0] args IH] using rev_ind; [done|].
    by rewrite withBuildArgs_snoc.
Qed.

Lemma withBuildArg_last_wins_witness :
  ("V", "2")
    ∈ GenericContainerBuilder.buildArgs
        (withBuildArgs (fromDockerfile "./ctx") [("V", "1"); ("W", "x"); ("V", "2")]).
Proof.
  apply (proj1 (withBuildArg_last_wins "./ctx" [("V", "1"); ("W", "x"); ("V", "2")]
                  "V" "2")).
  split; [done|].
  exists [("V", "1"); ("W", "x")], []. split; [done|]. cbn. by intros ?%elem_of_nil.
Defined.

(** ** What [start] hands out and what it leaves behind *)

(** X7: the handle [start] returns names the container that the
    creation call answered with, reports the name that the inspection
    of that container answered with, and gives the host of the
    builder's client as its address. *)
Theorem started_handle_reports_engine_answers {W} (h : Handler ClientSig W)
    (self : GenericContainer.t) (w : W) started :
  result (run h (GenericContainer.start self) w) = Ok started →
  StartedGenericContainer.getContainerIpAddress started
  = getHost (GenericContainer.dockerClient self)
  ∧ (∃ options w1 w2,
       h (Create options) w1 = (Ok (StartedGenericContainer.container started), w2))
  ∧ (∃ inspected w1 w2,
       h (ContainerInspect (StartedGenericContainer.container started)) w1
       = (Ok inspected, w2)
       ∧ StartedGenericContainer.getName started = InspectResult.name inspected).
Proof.
  unfold_start. answer h; [|done].
  destruct (existsb _ _); cbn.
  all: repeat answer h; try done.
  all: intros [= <-]; cbn.
  all: split; [done|split]; [by eexists _, _, _|by eexists _, _, _].
Qed.

Lemma started_handle_reports_engine_answers_witness :
  StartedGenericContainer.getName
    (startedHandle Sample.web (PortBinder.bound [80; 443]%N [32768; 32769]%N)
       (mkContainer "c0ffee") (InspectResult.mk "/web" true))
  = "/web".
Proof.
  destruct (started_handle_reports_engine_answers (Sample.engine true) Sample.web []
              (startedHandle Sample.web (PortBinder.bound [80; 443]%N [32768; 32769]%N)
                 (mkContainer "c0ffee") (InspectResult.mk "/web" true))
              eq_refl) as (_ & _ & inspected & w1 & w2 & Hinspect & ->).
  by injection Hinspect as <-.
Defined.

(** X8: [start] never cleans up: no run of it stops or removes a
    container, so when waiting for readiness fails the container that
    was created and started is left as it is, and the failure is the
    result. *)
Theorem start_never_cleans_up {W} (h : Handler ClientSig W)
    (self : GenericContainer.t) (w : W) :
  (∀ c, stepOf c = OtherCall →
        c ∉ calls (trace (run h (GenericContainer.start self) w)))
  ∧ (∀ ws c st bp e,
       mkEntry (Σ := ClientSig) (WaitUntilReady ws c st bp) (Some e)
         ∈ trace (run h (GenericContainer.start self) w) →
       result (run h (GenericContainer.start self) w) = Err e
       ∧ mkEntry (Σ := ClientSig) (Start c) None
           ∈ trace (run h (GenericContainer.start self) w)
       ∧ ∃ options w1 w2, h (Create options) w1 = (Ok c, w2)).
Proof.
  split.
  - intros c Hc. unfold_start. answer h.
    2:{ intros Hin. among Hin. by subst. }
    destruct (existsb _ _); cbn.
    all: repeat answer h.
    all: intros Hin; among Hin; by subst.
  - intros ws c st bp e. unfold_start. answer h.
    2:{ intros Hin. among Hin. }
    destruct (existsb _ _); cbn.
    all: repeat answer h.
    all: intros Hin; among Hin.
    all: injection Hin as -> -> -> -> ->.
    all: split; [done|split]; [|by eexists _, _, _].
    all: rewrite !elem_of_cons; auto 10.
Qed.

Lemma start_never_cleans_up_witness :
  result (run (Sample.failing
                 (λ c, match c with
                       | WaitUntilReady _ _ _ _ => Some WaitTimeoutError
                       | _ => None
                       end)
                 (Sample.engine true))
            (GenericContainer.start Sample.web) [])
  = Err WaitTimeoutError.
Proof.
  refine (proj1 (proj2 (start_never_cleans_up _ Sample.web [])
                   (WaitStrategy.mk
                      (HostPortWaitStrategy Sample.client (mkHostPortCheck "localhost")
                         (mkInternalPortCheck (mkContainer "c0ffee") Sample.client))
                      (Some (mkDuration 60000 MILLISECONDS)))
                   (mkContainer "c0ffee")
                   (mkContainerState (InspectResult.mk "/web" true))
                   (PortBinder.bound [80; 443]%N [32768; 32769]%N)
                   WaitTimeoutError _)).
  vm_compute. do 6 apply list_elem_of_further. apply list_elem_of_here.
Defined.

(** ** The environment and the bind mounts of a creation request *)

Lemma getEnv_fold acc (env : list (string * string)) :
  foldl (λ dockerodeEnvironment '(key, value),
           dockerodeEnvironment ++ [key +:+ "=" +:+ value]) acc env
  = acc ++ ((λ '(key, value), key +:+ "=" +:+ value) <$> env).
Proof.
  revert acc. induction env as [|[k v] env IH]; intros acc; cbn.
  - by rewrite app_nil_r.
  - by rewrite IH, <-app_assoc.
Qed.

(** X9: [getEnv] yields one string per entry of the environment, at
    the position of the entry, and that string is the key, an equals
    sign and the value. *)
Theorem getEnv_entries (env : list (string * string)) :
  length (DockerodeClient.getEnv env) = length env
  ∧ ∀ i key value,
      env !! i = Some (key, value) →
      DockerodeClient.getEnv env !! i = Some (key +:+ "=" +:+ value).
Proof.
  unfold DockerodeClient.getEnv. rewrite getEnv_fold. cbn. split.
  - by rewrite length_fmap.
  - intros i key value Hi. by rewrite list_lookup_fmap, Hi.
Qed.

Lemma getEnv_entries_witness :
  DockerodeClient.getEnv (GenericContainer.env Sample.web) !! 0%nat
  = Some "MODE=test".
Proof.
  exact (proj2 (getEnv_entries (GenericContainer.env Sample.web))
           0%nat "MODE" "test" eq_refl).
Defined.

Lemma append_cons c (a b : string) : String c a +:+ b = String c (a +:+ b).
Proof. reflexivity. Qed.

Lemma append_nil (b : string) : EmptyString +:+ b = b.
Proof. reflexivity. Qed.

(** A string is cut at the first occurrence of a character in one
    way only. *)
Lemma cut_at_first c (a a' b b' : string) :
  occurs c a = false → occurs c a' = false →
  a +:+ String c b = a' +:+ String c b' → a = a' ∧ b = b'.
Proof.
  revert a'. induction a as [|x a IH]; intros [|x' a']; cbn;
    rewrite ?append_cons, ?append_nil.
  - by intros _ _ [= ->].
  - intros _ [Hx' _]%orb_false_iff [= <- _]. by rewrite Ascii.eqb_refl in Hx'.
  - intros [Hx _]%orb_false_iff _ [= -> _]. by rewrite Ascii.eqb_refl in Hx.
  - intros [_ Ha]%orb_false_iff [_ Ha']%orb_false_iff [= -> Heq].
    by destruct (IH _ Ha Ha' Heq) as [-> ->].
Qed.

(** X10: for environments whose keys contain no equals sign, [getEnv]
    loses nothing: equal results come from equal environments. *)
Theorem getEnv_injective (env env' : list (string * string)) :
  Forall (λ entry, occurs "=" entry.1 = false) env →
  Forall (λ entry, occurs "=" entry.1 = false) env' →
  DockerodeClient.getEnv env = DockerodeClient.getEnv env' →
  env = env'.
Proof.
  unfold DockerodeClient.getEnv. rewrite !getEnv_fold. cbn.
  intros Henv. revert env'.
  induction Henv as [|[k v] env Hk Henv IH]; intros env' Henv'.
  - by destruct env'.
  - destruct Henv' as [|[k' v'] env' Hk' Henv']; [done|].
    rewrite !fmap_cons. intros [= Hhead Htail]. cbn in Hk, Hk'.
    destruct (cut_at_first "=" k k' v v' Hk Hk' Hhead) as [-> ->].
    by rewrite (IH _ Henv' Htail).
Qed.

Lemma getEnv_injective_witness :
  [("MODE", "a=b")] = [("MODE", "a=b")].
Proof.
  apply getEnv_injective.
  - by repeat constructor.
  - by repeat constructor.
  - reflexivity.
Defined.

(** X11: [getBindMounts] yields one string per mount, at the position
    of the mount; when source and target contain no colon, the string
    splits at colons into exactly the source, the target and the mode,
    [rw] or [ro]. *)
Theorem getBindMounts_fields (bindMounts : list BindMount) i mount :
  bindMounts !! i = Some mount →
  occurs ":" (source mount) = false → occurs ":" (target mount) = false →
  ∃ s, DockerodeClient.getBindMounts bindMounts !! i = Some s
       ∧ length (DockerodeClient.getBindMounts bindMounts) = length bindMounts
       ∧ DockerodeClient.split ":" s
         = [source mount; target mount;
            match bindMode mount with rw => "rw" | ro => "ro" end].
Proof.
  intros Hi Hsource Htarget. unfold DockerodeClient.getBindMounts.
  rewrite list_lookup_fmap, Hi, length_fmap. cbn. eexists. split; [done|].
  split; [done|].
  set (mode := DockerodeClient.bindModeString (bindMode mount)).
  change (":" +:+ target mount +:+ ":" +:+ mode)
    with (String ":" (target mount +:+ String ":" mode)).
  rewrite (split_at_first _ _ _ Hsource), (split_at_first _ _ _ Htarget).
  unfold mode. by destruct (bindMode mount).
Qed.

Lemma getBindMounts_fields_witness :
  ∃ s, DockerodeClient.getBindMounts [mkBindMount "/data" "/var/lib" ro] !! 0%nat
       = Some s
       ∧ DockerodeClient.split ":" s = ["/data"; "/var/lib"; "ro"].
Proof.
  destruct (getBindMounts_fields [mkBindMount "/data" "/var/lib" ro] 0
              (mkBindMount "/data" "/var/lib" ro) eq_refl eq_refl eq_refl)
    as (s & Hs & _ & Hsplit).
  by exists s.
Defined.

(** ** Ports outside the map, and ports bound twice *)

(** X12: a port that is not an internal port of the port map is
    neither exposed nor bound in what [getExposedPorts] and
    [getPortBindings] return. *)
Theorem unbound_port_not_published (boundPorts : BoundPorts.t) (p : N) :
  p ∉ (BoundPorts.iterator boundPorts).*1 →
  DockerodeClient.getExposedPorts boundPorts !! pretty p = None
  ∧ DockerodeClient.getPortBindings boundPorts !! pretty p = None.
Proof.
  intros Hp.
  assert (Hkey : pretty p ∉ (list_to_set ((λ pair : N * N, pretty pair.1)
                                            <$> BoundPorts.iterator boundPorts)
                             : gset string)).
  { rewrite elem_of_list_to_set, list_elem_of_fmap.
    intros ([i hp] & ->%(inj pretty) & Hin). apply Hp.
    apply list_elem_of_fmap. by exists (i, hp). }
  unfold DockerodeClient.getExposedPorts, DockerodeClient.getPortBindings.
  split; apply not_elem_of_dom.
  - by rewrite exposedPorts_dom, dom_empty_L, (left_id_L ∅ (∪)).
  - by rewrite portBindings_dom, dom_empty_L, (left_id_L ∅ (∪)).
Qed.

Lemma unbound_port_not_published_witness :
  DockerodeClient.getExposedPorts (PortBinder.bound [80; 443]%N [32768; 32769]%N)
    !! "8080" = None
  ∧ DockerodeClient.getPortBindings (PortBinder.bound [80; 443]%N [32768; 32769]%N)
      !! "8080" = None.
Proof.
  apply (unbound_port_not_published _ 8080%N). cbn. intros Hin. among Hin.
Defined.

Lemma portBindings_untouched (pairs : list (N * N))
    (acc : gmap string (list DockerodeClient.PortBinding)) (i : N) :
  i ∉ pairs.*1 →
  foldl (λ bindings '(internalPort, hostPort),
           <[pretty internalPort :=
               [DockerodeClient.mkPortBinding (pretty hostPort)]]> bindings)
    acc pairs !! pretty i
  = acc !! pretty i.
Proof.
  revert acc. induction pairs as [|[j hp] pairs IH]; intros acc Hi; [done|].
  cbn in Hi. apply not_elem_of_cons in Hi as [Hne Hi]. cbn.
  rewrite (IH _ Hi). apply lookup_insert_ne. by intros ?%(inj pretty).
Qed.

(** X13: when the iteration of the port map yields an internal port
    more than once, the binding sent to the engine is the single entry
    of the last pair for that port; the earlier host ports are
    dropped. *)
Theorem portBindings_last_pair_wins pre (internalPort hostPort : N) post :
  internalPort ∉ post.*1 →
  DockerodeClient.getPortBindings
    (BoundPorts.mk (pre ++ (internalPort, hostPort) :: post))
    !! pretty internalPort
  = Some [DockerodeClient.mkPortBinding (pretty hostPort)].
Proof.
  intros Hpost. unfold DockerodeClient.getPortBindings. cbn.
  rewrite foldl_app. cbn. rewrite (portBindings_untouched _ _ _ Hpost).
  apply lookup_insert_eq.
Qed.

Lemma portBindings_last_pair_wins_witness :
  DockerodeClient.getPortBindings
    (BoundPorts.mk [(80, 32768); (80, 32770); (443, 32769)]%N) !! "80"
  = Some [DockerodeClient.mkPortBinding "32770"].
Proof.
  apply (portBindings_last_pair_wins [(80, 32768)%N] 80%N 32770%N [(443, 32769)%N]).
  cbn. intros Hin. among Hin.
Defined.

(** ** Reading listed tag strings *)

(** X14: a listed string without a colon is read as an image name
    with an undefined tag. *)
Theorem toRepoTag_without_colon s :
  occurs ":" s = false → DockerodeClient.toRepoTag s = RepoTag.mk s None.
Proof.
  intros Hs. unfold DockerodeClient.toRepoTag. by rewrite (split_absent _ _ Hs).
Qed.

Lemma toRepoTag_without_colon_witness :
  DockerodeClient.toRepoTag "nginx" = RepoTag.mk "nginx" None.
Proof. apply toRepoTag_without_colon. reflexivity. Defined.

(** X15: only the first two colon-separated pieces of a listed string
    are read: what follows a second colon is dropped, so a string of
    the form host:port/name:tag is read as image host with tag
    port/name. *)
Theorem toRepoTag_drops_after_second_colon a b rest :
  occurs ":" a = false → occurs ":" b = false →
  DockerodeClient.toRepoTag (a +:+ ":" +:+ b +:+ ":" +:+ rest)
  = RepoTag.mk a (Some b).
Proof.
  intros Ha Hb. unfold DockerodeClient.toRepoTag.
  change (":" +:+ b +:+ ":" +:+ rest) with (String ":" (b +:+ String ":" rest)).
  rewrite (split_at_first _ _ _ Ha), (split_at_first _ _ _ Hb).
  by destruct (split_pieces ":" rest) as (piece & pieces & ->).
Qed.

Lemma toRepoTag_drops_after_second_colon_witness :
  DockerodeClient.toRepoTag "localhost:5000/app:1.0"
  = RepoTag.mk "localhost" (Some "5000/app").
Proof.
  exact (toRepoTag_drops_after_second_colon "localhost" "5000/app" "1.0"
           eq_refl eq_refl).
Defined.

Lemma split_pieces_clean sep s :
  Forall (λ piece, occurs sep piece = false) (DockerodeClient.split sep s).
Proof.
  induction s as [|c s IH]; cbn -[Ascii.eqb]; [by repeat constructor|].
  destruct (DockerodeClient.split sep s) as [|piece pieces]; [constructor|].
  apply Forall_cons in IH as [Hpiece Hpieces].
  destruct (Ascii.eqb c sep) eqn:Hc.
  - by repeat constructor.
  - constructor; [|done]. cbn -[Ascii.eqb]. by rewrite Hc.
Qed.

(** X16: no reference returned by [fetchRepoTags] has a colon in its
    image name or in its tag, whatever the engine lists. *)
Theorem fetched_references_have_no_colon {W}
    (h : Handler DockerodeClient.DockerodeSig W) (w : W) repoTags r :
  result (run h DockerodeClient.fetchRepoTags w) = Ok repoTags →
  r ∈ repoTags →
  occurs ":" (RepoTag.image r) = false
  ∧ ∀ tag, RepoTag.tag r = Some tag → occurs ":" tag = false.
Proof.
  unfold DockerodeClient.fetchRepoTags. cbn. answer h; [|done].
  intros [= <-]. rewrite collectRepoTags_fold. cbn.
  intros (image & Hr & _)%list_elem_of_bind.
  apply list_elem_of_fmap in Hr as (s & -> & _).
  unfold DockerodeClient.toRepoTag. cbn.
  pose proof (split_pieces_clean ":" s) as Hclean.
  rewrite Forall_lookup in Hclean. split.
  - destruct (DockerodeClient.split ":" s !! 0%nat) as [piece|] eqn:Hpiece; [|done].
    by apply (Hclean 0%nat).
  - intros tag Htag. by apply (Hclean 1%nat).
Qed.

Lemma fetched_references_have_no_colon_witness :
  occurs ":" (RepoTag.image (RepoTag.mk "redis" (Some "7"))) = false.
Proof.
  refine (proj1 (fetched_references_have_no_colon Sample.dockerode () _ _ eq_refl _)).
  do 2 apply list_elem_of_further. apply list_elem_of_here.
Defined.

(** ** Pulling, building and executing through the engine *)

(** X17: [pull] asks the engine for the image under the string form of
    the reference and returns only after the response stream was read
    to its end; when the request or the stream fails, that failure is
    the result of [pull], and a failed request reads no stream. *)
Theorem pull_waits_for_stream {W} (repoTagToString : RepoTag.t → string)
    (h : Handler DockerodeClientIO.IOSig W) (repoTag : RepoTag.t) (w : W) :
  (∀ done,
     result (run h (DockerodeClientIO.pull repoTagToString repoTag) w) = Ok done →
     ∃ stream w1,
       h (DockerodeClientIO.dockerodePull (repoTagToString repoTag)) w = (Ok stream, w1)
       ∧ trace (run h (DockerodeClientIO.pull repoTagToString repoTag) w)
         = [mkEntry (Σ := DockerodeClientIO.IOSig)
              (DockerodeClientIO.dockerodePull (repoTagToString repoTag)) None;
            mkEntry (Σ := DockerodeClientIO.IOSig)
              (DockerodeClientIO.streamToArray stream) None])
  ∧ (∀ e,
       result (run h (DockerodeClientIO.pull repoTagToString repoTag) w) = Err e →
       ∃ t c, trace (run h (DockerodeClientIO.pull repoTagToString repoTag) w)
              = t ++ [mkEntry (Σ := DockerodeClientIO.IOSig) c (Some e)])
  ∧ (∀ e w1,
       h (DockerodeClientIO.dockerodePull (repoTagToString repoTag)) w = (Err e, w1) →
       calls (trace (run h (DockerodeClientIO.pull repoTagToString repoTag) w))
       = [DockerodeClientIO.dockerodePull (repoTagToString repoTag)]).
Proof.
  unfold DockerodeClientIO.pull. cbn. split; [|split].
  - intros done. repeat answer h; try done. intros _. by eexists _, _.
  - intros e. repeat answer h; try done.
    all: intros [= ->].
    + by eexists [_], _.
    + by eexists [], _.
  - intros e w1 ->. done.
Qed.

Lemma pull_waits_for_stream_witness :
  result (run SampleIO.brokenStreams
            (DockerodeClientIO.pull SampleIO.toString
               (RepoTag.mk "nginx" (Some "latest"))) ())
  = Err (JsError "socket hang up")
  ∧ ∃ stream w1,
      SampleIO.engine (DockerodeClientIO.dockerodePull "nginx:latest") ()
      = (Ok stream, w1).
Proof.
  split; [reflexivity|].
  destruct (proj1 (pull_waits_for_stream SampleIO.toString SampleIO.engine
                     (RepoTag.mk "nginx" (Some "latest")) ()) () eq_refl)
    as (stream & w1 & Hpull & _).
  by exists stream, w1.
Defined.

(** X18: [buildImage] sends the packed build context with the build
    arguments unchanged and the string form of the reference as the
    image tag, and returns only after the response stream was read to
    its end; when the request or the stream fails, that failure is the
    result, and a failed request reads no stream. *)
Theorem buildImage_waits_for_stream {W} (repoTagToString : RepoTag.t → string)
    (h : Handler DockerodeClientIO.IOSig W) (repoTag : RepoTag.t)
    (context : string) (buildArgs : list (string * string)) (w : W) :
  let request :=
    DockerodeClientIO.dockerodeBuildImage (DockerodeClientIO.pack context)
      (DockerodeClientIO.mkImageBuildOptions buildArgs (repoTagToString repoTag)) in
  let o := run h (DockerodeClientIO.buildImage repoTagToString repoTag context buildArgs) w in
  (∀ done, result o = Ok done →
     ∃ stream w1,
       h request w = (Ok stream, w1)
       ∧ trace o
         = [mkEntry (Σ := DockerodeClientIO.IOSig) request None;
            mkEntry (Σ := DockerodeClientIO.IOSig)
              (DockerodeClientIO.streamToArray stream) None])
  ∧ (∀ e, result o = Err e →
       ∃ t c, trace o = t ++ [mkEntry (Σ := DockerodeClientIO.IOSig) c (Some e)])
  ∧ (∀ e w1, h request w = (Err e, w1) → calls (trace o) = [request]).
Proof.
  cbn zeta. unfold DockerodeClientIO.buildImage. cbn. split; [|split].
  - intros done. repeat answer h; try done. intros _. by eexists _, _.
  - intros e. repeat answer h; try done.
    all: intros [= ->].
    + by eexists [_], _.
    + by eexists [], _.
  - intros e w1 ->. done.
Qed.

Lemma buildImage_waits_for_stream_witness :
  ∃ stream,
    trace (run SampleIO.engine
             (DockerodeClientIO.buildImage SampleIO.toString
                (RepoTag.mk "3f2a" (Some "9b1c")) "./ctx" [("V", "1")]) ())
    = [mkEntry (Σ := DockerodeClientIO.IOSig)
         (DockerodeClientIO.dockerodeBuildImage (DockerodeClientIO.pack "./ctx")
            (DockerodeClientIO.mkImageBuildOptions [("V", "1")] "3f2a:9b1c")) None;
       mkEntry (Σ := DockerodeClientIO.IOSig)
         (DockerodeClientIO.streamToArray stream) None].
Proof.
  destruct (proj1 (buildImage_waits_for_stream SampleIO.toString SampleIO.engine
                     (RepoTag.mk "3f2a" (Some "9b1c")) "./ctx" [("V", "1")] ())
              () eq_refl) as (stream & w1 & _ & Htrace).
  by exists stream.
Defined.

(** X19: [exec] creates an exec instance with standard output and
    standard error attached, starts it, reads its stream to the end,
    and only then asks for the exit code; the output is the decoding
    of all chunks joined, so it does not depend on how the stream was
    chunked; a failure of any of the four calls is the result and ends
    the method. *)
Theorem exec_reads_output_then_exit_code {W} (bufferToString : string → string)
    (h : Handler DockerodeClientIO.IOSig W) (container : Container)
    (command : list string) (w : W) :
  let create :=
    DockerodeClientIO.containerExec container
      (DockerodeClientIO.mkExecOptions command true true) in
  let o := run h (DockerodeClientIO.exec bufferToString container command) w in
  (∀ r, result o = Ok r →
     ∃ e stream chunks info w1 w2 w3 w4,
       h create w = (Ok e, w1)
       ∧ h (DockerodeClientIO.execStart e) w1 = (Ok stream, w2)
       ∧ h (DockerodeClientIO.streamToArray stream) w2 = (Ok chunks, w3)
       ∧ h (DockerodeClientIO.execInspect e) w3 = (Ok info, w4)
       ∧ calls (trace o)
         = [create; DockerodeClientIO.execStart e;
            DockerodeClientIO.streamToArray stream; DockerodeClientIO.execInspect e]
       ∧ output r = bufferToString (String.concat "" chunks)
       ∧ exitCode r = DockerodeClientIO.inspectedExitCode info)
  ∧ (∀ e, result o = Err e →
       ∃ t c, trace o = t ++ [mkEntry (Σ := DockerodeClientIO.IOSig) c (Some e)]
              ∧ Forall (λ en, failure en = None) t)
  ∧ (∀ e, DockerodeClientIO.execInspect e ∈ calls (trace o) →
       ∃ stream, mkEntry (Σ := DockerodeClientIO.IOSig)
                   (DockerodeClientIO.streamToArray stream) None ∈ trace o).
Proof.
  cbn zeta. unfold DockerodeClientIO.exec. cbn. split; [|split].
  - intros r. repeat answer h; try done. intros [= <-]. cbn.
    by eexists _, _, _, _, _, _, _, _.
  - intros e. repeat answer h; try done.
    all: intros [= ->].
    all: match goal with
         | |- ∃ t c, ?l = _ ∧ _ => exists (removelast l); cbn
         end.
    all: eexists; split; [reflexivity|repeat constructor].
  - intros e. repeat answer h.
    all: intros Hin; among Hin.
    all: eexists; rewrite !elem_of_cons; auto 10.
Qed.

Lemma exec_reads_output_then_exit_code_witness :
  ∃ r, result (run SampleIO.engine
                 (DockerodeClientIO.exec (λ bytes, bytes) (mkContainer "c0ffee")
                    ["echo"; "hello"]) ())
       = Ok r
       ∧ output r = "hello" ∧ exitCode r = 0%Z.
Proof.
  eexists. split; [reflexivity|].
  destruct (proj1 (exec_reads_output_then_exit_code (λ bytes, bytes) SampleIO.engine
                     (mkContainer "c0ffee") ["echo"; "hello"] ()) _ eq_refl)
    as (e & stream & chunks & info & w1 & w2 & w3 & w4 & _ & _ & _ & _ & _ & Hout & Hcode).
  split; [reflexivity|reflexivity].
Defined.

(** ** From the builder to the creation request *)

Lemma unique_key_value {V} (o : list (string * V)) key (v v' : V) :
  NoDup o.*1 → (key, v) ∈ o → (key, v') ∈ o → v = v'.
Proof.
  induction o as [|[k0 v0] o IH]; cbn; intros Hnd.
  - by intros ?%elem_of_nil.
  - apply NoDup_cons in Hnd as [Hk0 Hnd].
    assert (Hfresh : ∀ x : V, (k0, x) ∉ o).
    { intros x Hin. apply Hk0, list_elem_of_fmap. by exists (k0, x). }
    intros [[= -> ->]|Hin]%elem_of_cons [[= ->]|Hin']%elem_of_cons; try done.
    + by destruct (Hfresh v').
    + subst. by destruct (Hfresh v).
    + by apply IH.
Qed.

(** X20: the creation request built from the environment of a builder
    never carries two values for one variable: when no key of the
    environment contains an equals sign, two strings of the request
    that begin with the same key and an equals sign are the same. *)
Theorem request_env_single_valued (repoTagToString : RepoTag.t → string)
    client image tag chain (options : CreateOptions) key value value' :
  let self := GenericContainer.configured (GenericContainer.new client image tag) chain in
  co_env options = GenericContainer.env self →
  Forall (λ entry, occurs "=" entry.1 = false) (GenericContainer.env self) →
  occurs "=" key = false →
  key +:+ "=" +:+ value
    ∈ DockerodeClient.opt_Env (DockerodeClient.createRequest repoTagToString options) →
  key +:+ "=" +:+ value'
    ∈ DockerodeClient.opt_Env (DockerodeClient.createRequest repoTagToString options) →
  value = value'.
Proof.
  cbn zeta. intros Henv Hkeys Hkey. cbn. rewrite Henv.
  unfold DockerodeClient.getEnv. rewrite getEnv_fold. cbn.
  assert (Hentry : ∀ v,
    key +:+ "=" +:+ v
      ∈ (λ '(key, value), key +:+ "=" +:+ value)
          <$> GenericContainer.env
                (GenericContainer.configured
                   (GenericContainer.new client image tag) chain) →
    (key, v) ∈ GenericContainer.env
                 (GenericContainer.configured
                    (GenericContainer.new client image tag) chain)).
  { intros v ([k1 v1] & Heq & Hin)%list_elem_of_fmap.
    rewrite Forall_forall in Hkeys. pose proof (Hkeys _ Hin) as Hk1. cbn in Hk1.
    by destruct (cut_at_first "=" key k1 v v1 Hkey Hk1 Heq) as [-> ->]. }
  intros Hv%Hentry Hv'%Hentry.
  refine (unique_key_value _ _ _ _ (configured_env_NoDup _ chain _) Hv Hv').
  cbn. constructor.
Qed.

Lemma request_env_single_valued_witness :
  "test" = "test".
Proof.
  refine (request_env_single_valued SampleIO.toString Sample.client "nginx" None
            [GenericContainer.WithEnv "MODE" "dev"; GenericContainer.WithEnv "MODE" "test"]
            (mkCreateOptions (RepoTag.mk "nginx" (Some "latest")) [("MODE", "test")]
               [] [] [] BoundPorts.empty None)
            "MODE" "test" "test" eq_refl _ eq_refl _ _).
  - by repeat constructor.
  - cbn. apply list_elem_of_here.
  - cbn. apply list_elem_of_here.
Defined.
